(** * Link graph, research cache, query router and prompt assembly

    Shallow embedding of the TypeScript modules
    - [lib/graph-builder] (file src/unnamed/part_000),
    - [lib/tavily-cache.ts],
    - [lib/ai-router.ts],
    - [lib/prompt-cache.ts],
    - [lib/cost-tracker] (file src/unnamed/part_001), its in-memory log
      passed explicitly and [Date.now()] readings as arguments,
    - the request assembly and cost logging of [app/api/ai/chat/route.ts].

    Strings are [String.string]; a character is one 8-bit code unit read as
    Latin-1, so [toLowerCase], [trim] and the regular-expression class [\s]
    are modelled on that range. JavaScript numbers used as money or as
    similarity scores are modelled as exact rationals [Q]; clock readings
    ([Date.now()]) and token counts that are compared are integers [Z]. *)

From Stdlib Require Import String Ascii ZArith QArith Qfield Qround Permutation Lqa.
From stdpp Require Import base gmap sets list strings.

Open Scope string_scope.

(** Let [simpl] compute string concatenation again (stdpp blocks it). *)
Arguments String.append : simpl nomatch.

(** ** Characters and strings *)

Definition code (c : ascii) : nat := nat_of_ascii c.

Definition chr (n : nat) : ascii := ascii_of_nat n.

(** A string of one character. *)
Definition str1 (c : ascii) : string := String c EmptyString.

(** Newline and double quote, used by template literals. *)
Definition nl : string := str1 (chr 10).
Definition dq : string := str1 (chr 34).

(** [WhiteSpace] and [LineTerminator] of ECMAScript restricted to Latin-1:
    tab, line feed, vertical tab, form feed, carriage return, space and
    no-break space. This is the class [\s] and what [trim] removes. *)
Definition is_space (c : ascii) : bool :=
  let n := code c in
  (n =? 9)%nat || (n =? 10)%nat || (n =? 11)%nat || (n =? 12)%nat
  || (n =? 13)%nat || (n =? 32)%nat || (n =? 160)%nat.

(** [String.prototype.toLowerCase] on Latin-1: A-Z and the upper-case
    letters U+00C0..U+00DE except U+00D7. *)
Definition lower_char (c : ascii) : ascii :=
  let n := code c in
  if ((65 <=? n) && (n <=? 90))%nat then chr (n + 32)
  else if ((192 <=? n) && (n <=? 222) && negb (n =? 215))%nat then chr (n + 32)
  else c.

Fixpoint toLowerCase (s : string) : string :=
  match s with
  | EmptyString => EmptyString
  | String c s' => String (lower_char c) (toLowerCase s')
  end.

Fixpoint trim_start (s : string) : string :=
  match s with
  | EmptyString => EmptyString
  | String c s' => if is_space c then trim_start s' else s
  end.

Fixpoint string_rev (s : string) : string :=
  match s with
  | EmptyString => EmptyString
  | String c s' => String.append (string_rev s') (str1 c)
  end.

Definition trim (s : string) : string :=
  string_rev (trim_start (string_rev (trim_start s))).

(** [s.split(/\s+/)]: the pieces between maximal runs of whitespace; a
    leading or trailing run gives an empty first or last piece, and the
    empty string gives one empty piece. [inws] records that the previous
    character was whitespace, [cur] is the current piece reversed. *)
Fixpoint split_ws_go (s : string) (cur : string) (inws : bool) : list string :=
  match s with
  | EmptyString => [string_rev cur]
  | String c s' =>
      if is_space c then
        (if inws then split_ws_go s' cur true
         else string_rev cur :: split_ws_go s' EmptyString true)
      else split_ws_go s' (String c cur) false
  end.

Definition split_ws (s : string) : list string := split_ws_go s EmptyString false.

(** [s.replace(/\s+/g, '-')]: every maximal whitespace run becomes one
    hyphen. *)
Fixpoint replace_ws_go (s : string) (inws : bool) : string :=
  match s with
  | EmptyString => EmptyString
  | String c s' =>
      if is_space c then
        (if inws then replace_ws_go s' true else String "-" (replace_ws_go s' true))
      else String c (replace_ws_go s' false)
  end.

Definition replace_ws_hyphen (s : string) : string := replace_ws_go s false.

(** [s.endsWith(suf)]. *)
Definition ends_with (suf s : string) : bool :=
  let n := String.length s in
  let m := String.length suf in
  (m <=? n)%nat && String.eqb (substring (n - m) m s) suf.

(** [s.replace(pat, rep)] with a string pattern: only the first
    occurrence is replaced. *)
Definition replace_first (pat rep s : string) : string :=
  match String.index 0 pat s with
  | Some i => String.append (substring 0 i s)
                (String.append rep (substring (i + String.length pat) (String.length s) s))
  | None => s
  end.

(** JavaScript truthiness of an optional string: [undefined] and [""] are
    falsy. *)
Definition truthy_str (o : option string) : bool :=
  match o with
  | Some (String _ _) => true
  | _ => false
  end.

(** [[...new Set(xs)]]: duplicates removed, first occurrences kept in
    order. *)
Fixpoint dedup_go (seen : list string) (xs : list string) : list string :=
  match xs with
  | [] => []
  | x :: xs' =>
      if existsb (String.eqb x) seen then dedup_go seen xs'
      else x :: dedup_go (x :: seen) xs'
  end.

Definition dedup (xs : list string) : list string := dedup_go [] xs.

(** [take_while p s]: the longest prefix of [s] whose characters satisfy
    [p], and the rest. *)
Fixpoint take_while (p : ascii -> bool) (s : string) : string * string :=
  match s with
  | EmptyString => (EmptyString, EmptyString)
  | String c s' =>
      if p c then let '(a, b) := take_while p s' in (String c a, b)
      else (EmptyString, s)
  end.

Definition is_char (n : nat) (c : ascii) : bool := (code c =? n)%nat.

(** ** Link extraction ([extractWikiLinks]) *)
Module Links.

(** [String.prototype.matchAll] with a global regular expression, given the
    match attempt [m] at one position: [m s] is the capture and the input
    after the match, which is never empty. A failed attempt moves one
    character on; [fuel] bounds the number of steps. *)
Fixpoint scan_all {A} (fuel : nat) (m : string -> option (A * string)) (s : string)
  : list A :=
  match fuel with
  | O => []
  | S f =>
      match m s with
      | Some (a, rest) => a :: scan_all f m rest
      | None =>
          match s with
          | EmptyString => []
          | String _ s' => scan_all f m s'
          end
      end
  end.

Definition match_all {A} (m : string -> option (A * string)) (s : string) : list A :=
  scan_all (S (String.length s)) m s.

Definition not_rbracket (c : ascii) : bool := negb (is_char 93 c).
Definition not_rparen (c : ascii) : bool := negb (is_char 41 c).
Definition not_rbracket_pipe (c : ascii) : bool :=
  negb (is_char 93 c) && negb (is_char 124 c).

(** [/\[([^\]]+)\]\(\/wiki\/([^)]+)\)/] at one position; capture 2.
    Each [[^x]+] is followed by [x], so only its longest run can match. *)
Definition match_md_at (s : string) : option (string * string) :=
  match s with
  | String "[" s1 =>
      let '(g1, r1) := take_while not_rbracket s1 in
      match g1, r1 with
      | String _ _, String "]" (String "(" r2) =>
          if String.prefix "/wiki/" r2 then
            let '(g2, r3) := take_while not_rparen (substring 6 (String.length r2) r2) in
            match g2, r3 with
            | String _ _, String ")" r4 => Some (g2, r4)
            | _, _ => None
            end
          else None
      | _, _ => None
      end
  | _ => None
  end.

(** [/\[\[([^\]|]+)(?:\|([^\]]+))?\]\]/] at one position; captures 1
    and 2. The first run stops at [|] or [\]]; after the optional group
    comes [\]\]], so the second run is also its longest one. *)
Definition match_wiki_at (s : string) : option ((string * option string) * string) :=
  match s with
  | String "[" (String "[" s1) =>
      let '(g1, r1) := take_while not_rbracket_pipe s1 in
      match g1 with
      | EmptyString => None
      | _ =>
          match r1 with
          | String "|" r2 =>
              let '(g2, r3) := take_while not_rbracket r2 in
              match g2, r3 with
              | String _ _, String "]" (String "]" r4) => Some ((g1, Some g2), r4)
              | _, _ => None
              end
          | String "]" (String "]" r4) => Some ((g1, None), r4)
          | _ => None
          end
      end
  | _ => None
  end.

Definition is_slug_char (c : ascii) : bool :=
  let n := code c in
  (((97 <=? n) && (n <=? 122)) || ((48 <=? n) && (n <=? 57)) || (n =? 45))%nat.

(** [/\/wiki\/([a-z0-9-]+)/] at one position; capture 1. *)
Definition match_raw_at (s : string) : option (string * string) :=
  if String.prefix "/wiki/" s then
    let '(g, r) := take_while is_slug_char (substring 6 (String.length s) s) in
    match g with
    | EmptyString => None
    | _ => Some (g, r)
    end
  else None.

(** [slug.toLowerCase().replace(/\s+/g, '-')]. *)
Definition normalize_slug (s : string) : string := replace_ws_hyphen (toLowerCase s).

(** [match[2] || match[1]]: capture 2 when present (it is never empty). *)
Definition wiki_slug (m : string * option string) : string :=
  match m with
  | (_, Some (String c s)) => String c s
  | (g1, _) => g1
  end.

Definition extractWikiLinks (content : string) : list string :=
  let links := match_all match_md_at content in
  let links := (links ++ map (fun m => normalize_slug (wiki_slug m))
                              (match_all match_wiki_at content))%list in
  let links := fold_left (fun acc x =>
                   if existsb (String.eqb x) acc then acc else (acc ++ [x])%list)
                 (match_all match_raw_at content) links in
  dedup links.

(** Every character of [s] satisfies [p]. *)
Fixpoint all_chars (p : ascii -> bool) (s : string) : bool :=
  match s with
  | EmptyString => true
  | String c s' => p c && all_chars p s'
  end.

Definition no_lbracket (c : ascii) : bool := negb (is_char 91 c).

(** [s] contains [\]\]]. *)
Fixpoint has_close (s : string) : bool :=
  match s with
  | EmptyString => false
  | String c r =>
      (is_char 93 c && match r with String d _ => is_char 93 d | EmptyString => false end)
      || has_close r
  end.

(** Every [\[\[] of [s] is followed, later in [s], by [\]\]]. *)
Fixpoint wiki_openings_closed (s : string) : bool :=
  match s with
  | EmptyString => true
  | String c r =>
      (negb (is_char 91 c)
       || match r with String d r' => negb (is_char 91 d) || has_close r' | EmptyString => true end)
      && wiki_openings_closed r
  end.

End Links.

(** ** Link graph ([buildLinkGraph] and the derived views) *)
Module Graph.

Record WikiPage := {
  slug : string;
  title : string;
  description : option string;
  category : option string;
  keywords : option (list string);
  related : option (list string);
  seeAlso : option (list string)
}.

(** [Map<string, Set<string>>] is a [gmap] of [gset]s: the claims are about
    membership, not about iteration order. *)
Record LinkGraph := {
  pages : gmap string WikiPage;
  forwardLinks : gmap string (gset string);
  backlinks : gmap string (gset string)
}.

(** What [matter(source)] yields for one file: the frontmatter fields the
    builder reads, and the body. *)
Record Frontmatter := {
  fm_title : option string;
  fm_description : option string;
  fm_category : option string;
  fm_keywords : option (list string);
  fm_related : option (list string);
  fm_seeAlso : option (list string)
}.

(** One entry of [readdir(chaptersDir)] together with what reading and
    parsing it gives. *)
Record ChapterFile := {
  file_name : string;
  file_frontmatter : Frontmatter;
  file_content : string
}.

Definition list_or_empty (o : option (list string)) : list string :=
  match o with Some l => l | None => [] end.

(** One iteration of the first pass. *)
Definition load_file (st : gmap string WikiPage * gmap string (gset string))
    (file : ChapterFile) : gmap string WikiPage * gmap string (gset string) :=
  let '(pgs, fwd) := st in
  if negb (ends_with ".md" (file_name file)) then st else
  let s := replace_first ".md" "" (file_name file) in
  let fm := file_frontmatter file in
  let page := {|
    slug := s;
    title := if truthy_str (fm_title fm) then
               match fm_title fm with Some t => t | None => s end
             else s;
    description := fm_description fm;
    category := fm_category fm;
    keywords := Some (list_or_empty (fm_keywords fm));
    related := Some (list_or_empty (fm_related fm));
    seeAlso := Some (list_or_empty (fm_seeAlso fm)) |} in
  let contentLinks := Links.extractWikiLinks (file_content file) in
  let allLinks : gset string :=
    list_to_set (contentLinks ++ list_or_empty (fm_related fm)
                              ++ list_or_empty (fm_seeAlso fm))%list in
  (<[s := page]> pgs, <[s := allLinks]> fwd).

(** Body of the inner loop of the second pass:
    [if (!backlinks.has(toSlug)) backlinks.set(toSlug, new Set());
     backlinks.get(toSlug)!.add(fromSlug)]. *)
Definition add_backlink (bl : gmap string (gset string)) (fromSlug toSlug : string)
  : gmap string (gset string) :=
  let bl1 := match bl !! toSlug with
             | Some _ => bl
             | None => <[toSlug := ∅]> bl
             end in
  <[toSlug := {[fromSlug]} ∪ default ∅ (bl1 !! toSlug)]> bl1.

Definition add_backlinks_from (bl : gmap string (gset string)) (fromSlug : string)
    (toSlugs : gset string) : gmap string (gset string) :=
  foldl (fun b t => add_backlink b fromSlug t) bl (elements toSlugs).

(** Second pass over [forwardLinks.entries()]. *)
Definition build_backlinks (fwd : gmap string (gset string)) : gmap string (gset string) :=
  foldl (fun b '(fromSlug, toSlugs) => add_backlinks_from b fromSlug toSlugs)
        ∅ (map_to_list fwd).

Definition buildLinkGraph (files : list ChapterFile) : LinkGraph :=
  let '(pgs, fwd) := foldl load_file (∅, ∅) files in
  {| pages := pgs; forwardLinks := fwd; backlinks := build_backlinks fwd |}.

(** [.map(s => graph.pages.get(s)).filter(p => p !== undefined)]. *)
Fixpoint filter_defined {A} (xs : list (option A)) : list A :=
  match xs with
  | [] => []
  | Some x :: xs' => x :: filter_defined xs'
  | None :: xs' => filter_defined xs'
  end.

Definition getBacklinks (graph : LinkGraph) (s : string) : list WikiPage :=
  let backlinkSlugs := default ∅ (backlinks graph !! s) in
  filter_defined (map (fun x => pages graph !! x) (elements backlinkSlugs)).

Definition getRelatedPages (graph : LinkGraph) (s : string) : list WikiPage :=
  match pages graph !! s with
  | None => []
  | Some page =>
      let relatedSlugs := dedup (list_or_empty (related page)
                                 ++ list_or_empty (seeAlso page))%list in
      filter_defined (map (fun x => pages graph !! x) relatedSlugs)
  end.

Definition option_string_eqb (a b : option string) : bool :=
  match a, b with
  | Some x, Some y => String.eqb x y
  | None, None => true
  | _, _ => false
  end.

Definition getCategoryPages (graph : LinkGraph) (s : string) : list WikiPage :=
  match pages graph !! s with
  | None => []
  | Some page =>
      if negb (truthy_str (category page)) then [] else
      List.filter (fun p => option_string_eqb (category p) (category page)
                       && negb (String.eqb (slug p) s))
             (map snd (map_to_list (pages graph)))
  end.

(** [t] has [f] in its backlink set. *)
Definition has_edge (bl : gmap string (gset string)) (f t : string) : Prop :=
  ∃ b, bl !! t = Some b ∧ f ∈ b.

(** Every page of [pages] is stored under its own slug. *)
Definition pages_keyed (pgs : gmap string WikiPage) : Prop :=
  ∀ k p, pgs !! k = Some p → slug p = k.

End Graph.

(** ** Research cache ([lib/tavily-cache.ts]) *)
Module Cache.

Inductive SearchDepth := basic | advanced.

#[global] Instance SearchDepth_eq_dec : EqDecision SearchDepth.
Proof. solve_decision. Defined.

Record TavilySearchParams := {
  query : string;
  maxResults : option Z;
  searchDepth : option SearchDepth;
  includeDomains : option (list string);
  excludeDomains : option (list string)
}.

Record SearchHit := {
  hit_title : string;
  hit_url : string;
  hit_content : string;
  hit_score : Q
}.

Record TavilySearchResult := {
  res_query : string;
  results : list SearchHit;
  cached : bool;
  timestamp : Z
}.

Record CacheEntry := {
  data : TavilySearchResult;
  expiresAt : Z
}.

(** The [normalized] object of [getCacheKey]. The key is
    [sha256(JSON.stringify(normalized))]; serialization is injective on
    these objects, and the digest is modelled by its input (collisions of
    SHA-256 are not modelled), so the key is the normalized object itself. *)
Record CacheKey := {
  key_query : string;
  key_maxResults : Z;
  key_searchDepth : SearchDepth;
  key_includeDomains : list string;
  key_excludeDomains : list string
}.

#[global] Instance CacheKey_eq_dec : EqDecision CacheKey.
Proof. solve_decision. Defined.

(** [Array.prototype.sort] without comparator on strings: a stable sort by
    code units ([String.ltb]). *)
Fixpoint insert_sorted (x : string) (l : list string) : list string :=
  match l with
  | [] => [x]
  | y :: l' => if String.ltb x y then x :: y :: l' else y :: insert_sorted x l'
  end.

Definition sort_strings (l : list string) : list string :=
  fold_left (fun acc x => insert_sorted x acc) l [].

Definition getCacheKey (params : TavilySearchParams) : CacheKey := {|
  key_query := trim (toLowerCase (query params));
  key_maxResults := match maxResults params with
                    | Some n => if Z.eqb n 0 then 5 else n
                    | None => 5
                    end;
  key_searchDepth := match searchDepth params with Some d => d | None => basic end;
  key_includeDomains := match includeDomains params with
                        | Some l => sort_strings l | None => [] end;
  key_excludeDomains := match excludeDomains params with
                        | Some l => sort_strings l | None => [] end |}%Z.

(** The module-level [Map<string, CacheEntry>]: entries in insertion
    order, keys distinct. *)
Definition store := list (CacheKey * CacheEntry).

Fixpoint map_get (k : CacheKey) (m : store) : option CacheEntry :=
  match m with
  | [] => None
  | (k', e) :: m' => if decide (k = k') then Some e else map_get k m'
  end.

Definition map_has (k : CacheKey) (m : store) : bool :=
  match map_get k m with Some _ => true | None => false end.

(** [Map.prototype.set]: an existing key keeps its position. *)
Definition map_set (k : CacheKey) (e : CacheEntry) (m : store) : store :=
  if map_has k m then map (fun '(k', e') => if decide (k = k') then (k', e) else (k', e')) m
  else (m ++ [(k, e)])%list.

Definition map_delete (k : CacheKey) (m : store) : store :=
  List.filter (fun '(k', _) => if decide (k = k') then false else true) m.

Definition CACHE_TTL : Z := 7 * 24 * 60 * 60 * 1000.
Definition SIMILARITY_THRESHOLD : Q := 85 # 100.

(** Membership in a list of words, and [new Set(words)]. *)
Definition mem (w : string) (l : list string) : bool := existsb (String.eqb w) l.

Definition calculateSimilarity (query1 query2 : string) : Q :=
  let words1 := dedup (split_ws (toLowerCase query1)) in
  let words2 := dedup (split_ws (toLowerCase query2)) in
  let intersection := List.filter (fun w => mem w words2) words1 in
  let union := dedup (words1 ++ words2)%list in
  inject_Z (Z.of_nat (List.length intersection)) / inject_Z (Z.of_nat (List.length union)).

(** The loop of [findSimilarQuery] over [cache.entries()]: [entries] is the
    iteration, [m] the map it deletes from. Deleting the entry being
    visited does not disturb a [Map] iteration. *)
Fixpoint find_similar_go (q : string) (now : Z) (entries : store) (m : store)
  : option CacheEntry * store :=
  match entries with
  | [] => (None, m)
  | (k, e) :: rest =>
      if (expiresAt e <? now)%Z then find_similar_go q now rest (map_delete k m)
      else if Qle_bool SIMILARITY_THRESHOLD (calculateSimilarity q (res_query (data e)))
      then (Some e, m)
      else find_similar_go q now rest m
  end.

(** [now] is the [Date.now()] read by [findSimilarQuery]. *)
Definition findSimilarQuery (params : TavilySearchParams) (now : Z) (m : store)
  : option CacheEntry * store :=
  find_similar_go (query params) now m m.

(** [{ ...data, cached: true }]. *)
Definition mark_cached (r : TavilySearchResult) : TavilySearchResult :=
  {| res_query := res_query r; results := results r; cached := true;
     timestamp := timestamp r |}.

(** The exact-match tier of [getCachedResult], at clock reading [now]. *)
Definition exact_hit (params : TavilySearchParams) (now : Z) (m : store)
  : option TavilySearchResult :=
  match map_get (getCacheKey params) m with
  | Some e => if (now <? expiresAt e)%Z then Some (mark_cached (data e)) else None
  | None => None
  end.

(** [getCachedResult]: [now1] is the [Date.now()] of the exact tier, [now2]
    the one read later by [findSimilarQuery]. Returns the result and the
    map after the lookup. *)
Definition getCachedResult (params : TavilySearchParams) (now1 now2 : Z) (m : store)
  : option TavilySearchResult * store :=
  match exact_hit params now1 m with
  | Some r => (Some r, m)
  | None =>
      let '(similarEntry, m') := findSimilarQuery params now2 m in
      match similarEntry with
      | Some e => (Some (mark_cached (data e)), m')
      | None => (None, m')
      end
  end.

(** [setCachedResult] at clock reading [now]. *)
Definition setCachedResult (params : TavilySearchParams) (result : TavilySearchResult)
    (now : Z) (m : store) : store :=
  map_set (getCacheKey params) {| data := result; expiresAt := now + CACHE_TTL |}%Z m.

(** Parameters with only a query, the others left to their defaults. *)
Definition with_query (q : string) : TavilySearchParams :=
  {| query := q; maxResults := None; searchDepth := None;
     includeDomains := None; excludeDomains := None |}.

(** The loop of [cleanupExpiredCache] over [cache.entries()], deleting
    from [m] each visited entry with [expiresAt < now]; the [cleaned]
    counter only feeds a log line. *)
Fixpoint cleanup_go (now : Z) (entries : store) (m : store) : store :=
  match entries with
  | [] => m
  | (k, e) :: rest =>
      if (expiresAt e <? now)%Z then cleanup_go now rest (map_delete k m)
      else cleanup_go now rest m
  end.

(** [cleanupExpiredCache] at clock reading [now]. *)
Definition cleanupExpiredCache (now : Z) (m : store) : store :=
  cleanup_go now m m.

End Cache.

(** ** Query router ([lib/ai-router.ts]) *)
Module Router.

(** The fragment of JavaScript regular expressions the router's patterns
    use: characters (compared case-insensitively, every pattern has the
    [i] flag), sequence, alternation, [.*], [\b] and [^] (no [m] flag). *)
Inductive regex :=
  | RChr (c : ascii)
  | RSeq (r1 r2 : regex)
  | RAlt (r1 r2 : regex)
  | RDotStar
  | RWordB
  | RBol
  | REps.

Fixpoint lit (s : string) : regex :=
  match s with
  | EmptyString => REps
  | String c s' => RSeq (RChr c) (lit s')
  end.

Fixpoint seqs (l : list regex) : regex :=
  match l with
  | [] => REps
  | r :: l' => RSeq r (seqs l')
  end.

(** [(a|b|...)] given its first alternative and the others. *)
Fixpoint alts (r : regex) (l : list regex) : regex :=
  match l with
  | [] => r
  | r' :: l' => RAlt r (alts r' l')
  end.

(** [\w]: [A-Za-z0-9_]. *)
Definition is_word_char (c : ascii) : bool :=
  let n := code c in
  (((65 <=? n) && (n <=? 90)) || ((97 <=? n) && (n <=? 122))
   || ((48 <=? n) && (n <=? 57)) || (n =? 95))%nat.

Definition word_before (prev : option ascii) : bool :=
  match prev with Some c => is_word_char c | None => false end.

Definition word_after (s : string) : bool :=
  match s with String c _ => is_word_char c | EmptyString => false end.

(** [.] matches anything but a line terminator. *)
Definition is_line_terminator (c : ascii) : bool := is_char 10 c || is_char 13 c.

(** Backtracking matcher in continuation-passing style: [prev] is the
    character before the current position ([None] at the start), [k] the
    rest of the pattern. The boolean is whether some way of matching
    succeeds, which is what [RegExp.prototype.test] reports. *)
Fixpoint dotstar (prev : option ascii) (s : string) (k : option ascii -> string -> bool)
  : bool :=
  k prev s ||
  match s with
  | EmptyString => false
  | String c s' => negb (is_line_terminator c) && dotstar (Some c) s' k
  end.

Fixpoint rmatch (r : regex) (prev : option ascii) (s : string)
    (k : option ascii -> string -> bool) : bool :=
  match r with
  | REps => k prev s
  | RChr c =>
      match s with
      | String c' s' => Ascii.eqb (lower_char c) (lower_char c') && k (Some c') s'
      | EmptyString => false
      end
  | RSeq r1 r2 => rmatch r1 prev s (fun p s' => rmatch r2 p s' k)
  | RAlt r1 r2 => rmatch r1 prev s k || rmatch r2 prev s k
  | RDotStar => dotstar prev s k
  | RWordB => if Bool.eqb (word_before prev) (word_after s) then false else k prev s
  | RBol => match prev with None => k prev s | Some _ => false end
  end.

Fixpoint test_from (r : regex) (prev : option ascii) (s : string) : bool :=
  rmatch r prev s (fun _ _ => true) ||
  match s with
  | EmptyString => false
  | String c s' => test_from r (Some c) s'
  end.

(** [pattern.test(s)]: a match starting at some position. *)
Definition rtest (r : regex) (s : string) : bool := test_from r None s.

Definition simplePatterns : list regex := [
  seqs [RBol; lit "what ";
        alts (lit "is") [lit "are"; lit "does"; lit "do";
                         RSeq (lit "mean") (RAlt (lit "s") REps); lit "was"; lit "were"];
        RWordB];
  seqs [RBol; lit "define"; RWordB];
  seqs [RBol; lit "definition of"; RWordB];
  seqs [RBol; lit "explain"; RDotStar; lit "briefly"; RWordB];
  seqs [RBol; lit "summarize"; RWordB];
  seqs [RBol; lit "summary of"; RWordB];
  seqs [RBol; lit "tldr"; RWordB];
  seqs [RBol; lit "eli5"; RWordB];
  seqs [RBol; lit "quick "; alts (lit "question") [lit "summary"]; RWordB];
  seqs [RBol; lit "how do "; alts (lit "i") [lit "you"]; RWordB];
  seqs [RBol; lit "can you "; alts (lit "list") [lit "name"]; RWordB];
  seqs [RBol; lit "who "; alts (lit "is") [lit "was"; lit "were"]; RWordB];
  seqs [RBol; lit "when "; alts (lit "did") [lit "was"; lit "were"]; RWordB];
  seqs [RBol; lit "where "; alts (lit "is") [lit "was"; lit "were"]; RWordB]
]%list.

Definition complexIndicators : list regex := [
  RSeq (lit "compar") (alts (lit "e") [lit "ison"; lit "ative"]);
  RSeq (lit "analyz") (alts (lit "e") [lit "is"]);
  RSeq (lit "critic") (alts (lit "al") [lit "ism"; lit "ize"]);
  RSeq (lit "evaluat") (alts (lit "e") [lit "ion"]);
  seqs [RWordB; alts (lit "why") [lit "how come"]; RWordB; RDotStar; RWordB;
        alts (lit "because") [lit "since"; lit "reason"]];
  lit "relationship between";
  lit "implication";
  lit "consequence";
  RSeq (lit "synthesiz") (alts (lit "e") [lit "ing"]);
  lit "in depth";
  RSeq (lit "detailed ") (alts (lit "explanation") [lit "analysis"]);
  seqs [lit "explore"; RDotStar; lit "connection"];
  lit "philosophical";
  lit "theological"
]%list.

Inductive QueryComplexity := simple | medium | complex.

Definition analyzeQueryComplexity (q : string) (selectedText : option string)
  : QueryComplexity :=
  let lowerQuery := trim (toLowerCase q) in
  if existsb (fun pattern => rtest pattern lowerQuery) simplePatterns then simple
  else if existsb (fun indicator => rtest indicator lowerQuery) complexIndicators then complex
  else
    let wordCount := List.length (split_ws q) in
    let hasSelectedText :=
      match selectedText with
      | Some t => (100 <? String.length t)%nat
      | None => false
      end in
    if ((20 <? wordCount)%nat || hasSelectedText) then medium
    else if (wordCount <=? 10)%nat then simple
    else medium.

Record ModelConfig := {
  model : string;
  maxTokens : Z;
  inputCostPer1M : Q;
  outputCostPer1M : Q;
  model_description : string
}.

Definition HAIKU : ModelConfig := {|
  model := "anthropic/claude-3.5-haiku";
  maxTokens := 400;
  inputCostPer1M := 25 # 100;
  outputCostPer1M := 125 # 100;
  model_description := "Fast, cost-effective for simple queries" |}.

Definition SONNET : ModelConfig := {|
  model := "anthropic/claude-sonnet-4.5";
  maxTokens := 600;
  inputCostPer1M := 3;
  outputCostPer1M := 15;
  model_description := "High quality for complex queries" |}.

Definition routeQuery (q : string) (selectedText : option string) : ModelConfig :=
  match analyzeQueryComplexity q selectedText with
  | simple => HAIKU
  | _ => SONNET
  end.

(** Whether the lower-cased, trimmed query matches some pattern of the
    list (the first two tests of [analyzeQueryComplexity]). *)
Definition matches_any (l : list regex) (q : string) : bool :=
  existsb (fun pattern => rtest pattern (trim (toLowerCase q))) l.

Definition estimateCost (m : ModelConfig) (inputTokens outputTokens : Q) : Q :=
  let inputCost := (inputTokens / 1000000 * inputCostPer1M m)%Q in
  let outputCost := (outputTokens / 1000000 * outputCostPer1M m)%Q in
  (inputCost + outputCost)%Q.

(** [Math.ceil(text.length / 4)]. *)
Definition estimateTokens (text : string) : Z :=
  Qceiling (inject_Z (Z.of_nat (String.length text)) / 4).

Record ModelRecommendation := {
  rec_model : ModelConfig;
  rec_complexity : QueryComplexity;
  reasoning : string;
  estimatedInputTokens : Z
}.

Definition getModelRecommendation (q : string) (selectedText : option string)
  : ModelRecommendation :=
  let complexity := analyzeQueryComplexity q selectedText in
  let config := routeQuery q selectedText in
  let queryTokens := estimateTokens q in
  let selectionTokens :=
    match selectedText with
    | Some (String c t) => estimateTokens (String c t)
    | _ => 0%Z
    end in
  let systemPromptTokens := 500%Z in
  let estimatedInputTokens := (queryTokens + selectionTokens + systemPromptTokens)%Z in
  let reasoning :=
    match complexity with
    | simple => "Simple query pattern detected (definitions, basic questions). Routing to Haiku for cost efficiency."
    | medium => "Medium complexity query. Using Sonnet for balanced quality."
    | complex => "Complex query requiring analysis or synthesis. Using Sonnet for highest quality."
    end in
  {| rec_model := config; rec_complexity := complexity; reasoning := reasoning;
     estimatedInputTokens := estimatedInputTokens |}.

End Router.

(** ** Prompt assembly ([lib/prompt-cache.ts]) *)
Module Prompt.

Inductive Role := system | user | assistant.

Inductive CacheControl := ephemeral.

Record CachedMessage := {
  role : Role;
  content : string;
  cache_control : option CacheControl
}.

Definition CACHED_SYSTEM_PROMPT : string :=
  "You are a research assistant for the " ++ dq ++ "Sacred Madness" ++ dq ++ " academic wiki, which explores holy foolishness, divine intoxication, and mystical practices across Orthodox Christianity and Sufi Islam." ++ nl ++ nl ++
  "Your role is to:" ++ nl ++
  "- Help researchers understand complex concepts" ++ nl ++
  "- Suggest connections between ideas" ++ nl ++
  "- Generate research questions" ++ nl ++
  "- Explain theological and mystical terminology" ++ nl ++
  "- Be academically rigorous but accessible" ++ nl ++ nl ++
  "The wiki covers:" ++ nl ++
  "- Byzantine saloi (6th-11th century holy fools)" ++ nl ++
  "- Russian yurodivye (Basil the Blessed, St. Xenia, Pelagia)" ++ nl ++
  "- Sufi majdhub/mast (divinely intoxicated mystics)" ++ nl ++
  "- Abdalan-i Rum (Anatolian antinomian dervishes - Kalenderi, Bektashi)" ++ nl ++
  "- Comparative mysticism and phenomenology" ++ nl ++
  "- Intersection of psychiatry, neuroscience, and spirituality" ++ nl ++
  "- St. Dymphna, Geel care model" ++ nl ++
  "- Bipolar II and mystical experience" ++ nl ++ nl ++
  "Geographic focus: Anatolia, Byzantine-Ottoman transitions (6th-16th centuries)" ++ nl ++
  "Methodological approach: Practice-centered analysis, positionality-grounded research, cross-traditional comparison".

Definition truncateContext (text : string) (maxChars : nat) : string :=
  if (String.length text <=? maxChars)%nat then text
  else substring 0 (maxChars - 3) text ++ "...".

(** A string is truthy when it is not empty. *)
Definition nonempty (s : string) : bool :=
  match s with EmptyString => false | _ => true end.

Definition page_context_message (truncatedContext : string) : CachedMessage :=
  {| role := user;
     content := "Current Page Context:" ++ nl ++ nl ++ truncatedContext;
     cache_control := Some ephemeral |}.

Definition selected_text_message (selectedText : string) : CachedMessage :=
  {| role := user;
     content := "Selected Text for Discussion:" ++ nl ++ dq ++ selectedText ++ dq ++ nl ++ nl
                ++ "Question about this selection:";
     cache_control := None |}.

(** Each [messages.push] is an append to the end. *)
Definition buildCachedMessages (userQuery : string) (pageContext selectedText : option string)
  : list CachedMessage :=
  let messages : list CachedMessage :=
    [ {| role := system; content := CACHED_SYSTEM_PROMPT; cache_control := Some ephemeral |} ] in
  let messages :=
    match pageContext with
    | Some pc => if nonempty pc
                 then (messages ++ [page_context_message (truncateContext pc 2000)])%list
                 else messages
    | None => messages
    end in
  let messages :=
    match selectedText with
    | Some st => if nonempty st then (messages ++ [selected_text_message st])%list
                 else messages
    | None => messages
    end in
  (messages ++ [ {| role := user; content := userQuery; cache_control := None |} ])%list.

Record CacheSavings := {
  sv_cachedTokens : Q;
  regularCost : Q;
  sv_cachedCost : Q;
  savings : Q;
  savingsPercent : Q
}.

(** [calculateCacheSavings]; [None] for [cacheHitRate] is the omitted
    argument, which defaults to [0.9]. *)
Definition calculateCacheSavings (systemPromptTokens contextTokens : Q)
    (cacheHitRate : option Q) : CacheSavings :=
  let cacheHitRate := match cacheHitRate with Some r => r | None => (9 # 10)%Q end in
  let totalCacheableTokens := (systemPromptTokens + contextTokens)%Q in
  let cachedTokens := (totalCacheableTokens * cacheHitRate)%Q in
  let regularCost := (totalCacheableTokens / 1000000 * 3)%Q in
  let cachedCost :=
    (cachedTokens / 1000000 * (3 # 10)
     + (totalCacheableTokens - cachedTokens) / 1000000 * 3)%Q in
  let savings := (regularCost - cachedCost)%Q in
  let savingsPercent := (savings / regularCost * 100)%Q in
  {| sv_cachedTokens := cachedTokens; regularCost := regularCost;
     sv_cachedCost := cachedCost; savings := savings; savingsPercent := savingsPercent |}.

(** The object [formatForOpenRouter] builds for one message: [role] and
    [content], and [cache_control] only when the message has one. *)
Record FormattedMessage := {
  f_role : Role;
  f_content : string;
  f_cache_control : option CacheControl
}.

Definition formatForOpenRouter (messages : list CachedMessage) : list FormattedMessage :=
  map (fun msg =>
         {| f_role := role msg; f_content := content msg;
            f_cache_control := match cache_control msg with
                               | Some c => Some c
                               | None => None
                               end |}) messages.

(** [markdown.replace(/^---[\s\S]*?---\n/, '')]: without the [m] flag
    [^] only matches at position 0; the lazy [[\s\S]*?] stops at the first
    [---\n] after the opening [---], and the match is removed. *)
Definition strip_frontmatter (markdown : string) : string :=
  if String.prefix "---" markdown then
    match String.index 3 ("---" ++ nl) markdown with
    | Some j => substring (j + 4) (String.length markdown) markdown
    | None => markdown
    end
  else markdown.

(** [s.split('\n')]; [cur] is the current piece reversed. *)
Fixpoint split_lines_go (s cur : string) : list string :=
  match s with
  | EmptyString => [string_rev cur]
  | String c s' =>
      if is_char 10 c then string_rev cur :: split_lines_go s' EmptyString
      else split_lines_go s' (String c cur)
  end.

Definition split_lines (s : string) : list string := split_lines_go s EmptyString.

(** The [for ... of lines] loop with its [break]. *)
Fixpoint accumulate_lines (maxChars : nat) (context : string) (lines : list string)
  : string :=
  match lines with
  | [] => context
  | line :: rest =>
      if (maxChars <? String.length context + String.length line)%nat then context
      else accumulate_lines maxChars (context ++ line ++ nl) rest
  end.

(** [extractPageContext(markdown, maxChars)]; the chat route passes
    [maxChars = 2000], the default. *)
Definition extractPageContext (markdown : string) (maxChars : nat) : string :=
  let withoutFrontmatter := strip_frontmatter markdown in
  let lines := split_lines withoutFrontmatter in
  trim (accumulate_lines maxChars EmptyString lines).

Record CachedRequest := {
  req_model : string;
  req_messages : list FormattedMessage;
  max_tokens : Z;
  temperature : option Q
}.

Definition buildCachedRequest (model : string) (userQuery : string) (maxTokens : Z)
    (pageContext selectedText : option string) : CachedRequest :=
  let messages := buildCachedMessages userQuery pageContext selectedText in
  {| req_model := model; req_messages := formatForOpenRouter messages;
     max_tokens := maxTokens; temperature := Some (7 # 10)%Q |}.

End Prompt.

(** ** Claude cost ([calculateClaudeCost] of [lib/cost-tracker]) *)
Module Costs.
Local Open Scope Q_scope.

Inductive ClaudeModel := haiku | sonnet.

Definition calculateClaudeCost (inputTokens outputTokens cachedTokens : Q)
    (model : ClaudeModel) : Q :=
  let '(inputCost, outputCost) :=
    match model with
    | haiku => (inputTokens / 1000000 * (25 # 100), outputTokens / 1000000 * (125 # 100))
    | sonnet => (inputTokens / 1000000 * 3, outputTokens / 1000000 * 15)
    end in
  let cachedCost :=
    cachedTokens / 1000000 * (match model with haiku => 25 # 1000 | sonnet => 3 # 10 end) in
  let regularInputCost :=
    (inputTokens - cachedTokens) / 1000000 * (match model with haiku => 25 # 100 | sonnet => 3 end) in
  cachedCost + regularInputCost + outputCost.

End Costs.

(** ** Cost log ([lib/cost-tracker], file src/unnamed/part_001) *)
Module Tracker.
Local Open Scope Q_scope.

Inductive Service := claude | tavily.

Definition service_eqb (a b : Service) : bool :=
  match a, b with
  | claude, claude | tavily, tavily => true
  | _, _ => false
  end.

(** [APICallLog]; optional fields are [option]s. *)
Record APICallLog := {
  timestamp : Z;
  service : Service;
  model : option string;
  endpoint : string;
  inputTokens : option Q;
  outputTokens : option Q;
  cachedTokens : option Q;
  cacheHit : bool;
  estimatedCost : Q;
  userId : option string;
  queryId : option string;
  success : bool;
  error : option string
}.

(** The module-level [costLogs] array is passed and returned explicitly. *)
Definition logs := list APICallLog.

Definition calculateTavilyCost (cached : bool) : Q := if cached then 0 else 5 # 1000.

Inductive Period := daily | weekly | monthly.

Definition oneDay : Z := 24 * 60 * 60 * 1000.

Definition getPeriodType (startTime endTime : Z) : Period :=
  let duration := (endTime - startTime)%Z in
  let oneWeek := (7 * oneDay)%Z in
  if (duration <=? oneDay)%Z then daily
  else if (duration <=? oneWeek)%Z then weekly
  else monthly.

(** [logs.reduce((sum, log) => sum + log.estimatedCost, 0)]. *)
Definition sum_cost (l : list APICallLog) : Q :=
  fold_left (fun sum log => sum + estimatedCost log) l 0.

Record Breakdown := { calls : nat; cost : Q }.

Record CostSummary := {
  period : Period;
  totalCost : Q;
  claudeCost : Q;
  tavilyCost : Q;
  callCount : nat;
  cacheHitRate : Q;
  averageCostPerCall : Q;
  breakdown_haiku : Breakdown;
  breakdown_sonnet : Breakdown;
  breakdown_tavily : Breakdown
}.

Definition in_period (startTime endTime : Z) (log : APICallLog) : bool :=
  ((startTime <=? timestamp log) && (timestamp log <=? endTime))%Z.

Definition has_model (name : string) (log : APICallLog) : bool :=
  match model log with Some m => String.eqb m name | None => false end.

Definition cacheable (log : APICallLog) : bool :=
  match cachedTokens log with Some _ => true | None => false end
  || service_eqb (service log) tavily.

Definition nat_to_Q (n : nat) : Q := inject_Z (Z.of_nat n).

(** The logs [calculateCostForPeriod] aggregates. *)
Definition period_logs (costLogs : logs) (startTime endTime : Z) : list APICallLog :=
  List.filter (in_period startTime endTime) costLogs.

Definition calculateCostForPeriod (costLogs : logs) (startTime endTime : Z) : CostSummary :=
  let logs := period_logs costLogs startTime endTime in
  let totalCost := sum_cost logs in
  let claudeCost := sum_cost (List.filter (fun log => service_eqb (service log) claude) logs) in
  let tavilyCost := sum_cost (List.filter (fun log => service_eqb (service log) tavily) logs) in
  let cacheableLogs := List.filter cacheable logs in
  let cacheHits := List.length (List.filter cacheHit cacheableLogs) in
  let cacheHitRate :=
    if (0 <? List.length cacheableLogs)%nat
    then nat_to_Q cacheHits / nat_to_Q (List.length cacheableLogs) else 0 in
  let haikuLogs := List.filter (has_model "haiku") logs in
  let sonnetLogs := List.filter (has_model "sonnet") logs in
  let tavilyLogs := List.filter (fun log => service_eqb (service log) tavily) logs in
  {| period := getPeriodType startTime endTime;
     totalCost := totalCost;
     claudeCost := claudeCost;
     tavilyCost := tavilyCost;
     callCount := List.length logs;
     cacheHitRate := cacheHitRate;
     averageCostPerCall :=
       if (0 <? List.length logs)%nat then totalCost / nat_to_Q (List.length logs) else 0;
     breakdown_haiku := {| calls := List.length haikuLogs; cost := sum_cost haikuLogs |};
     breakdown_sonnet := {| calls := List.length sonnetLogs; cost := sum_cost sonnetLogs |};
     breakdown_tavily := {| calls := List.length tavilyLogs; cost := sum_cost tavilyLogs |} |}.

(** [calculateDailyCost] and its weekly and monthly variants, at clock
    reading [now]. *)
Definition calculateDailyCost (costLogs : logs) (now : Z) : Q :=
  totalCost (calculateCostForPeriod costLogs (now - oneDay) now).

Definition calculateWeeklyCost (costLogs : logs) (now : Z) : Q :=
  totalCost (calculateCostForPeriod costLogs (now - 7 * oneDay) now).

Definition calculateMonthlyCost (costLogs : logs) (now : Z) : Q :=
  totalCost (calculateCostForPeriod costLogs (now - 30 * oneDay) now).

Record AllCostSummaries := {
  daily_summary : CostSummary;
  weekly_summary : CostSummary;
  monthly_summary : CostSummary
}.

Definition getAllCostSummaries (costLogs : logs) (now : Z) : AllCostSummaries :=
  let oneDayAgo := (now - 24 * 60 * 60 * 1000)%Z in
  let oneWeekAgo := (now - 7 * 24 * 60 * 60 * 1000)%Z in
  let oneMonthAgo := (now - 30 * 24 * 60 * 60 * 1000)%Z in
  {| daily_summary := calculateCostForPeriod costLogs oneDayAgo now;
     weekly_summary := calculateCostForPeriod costLogs oneWeekAgo now;
     monthly_summary := calculateCostForPeriod costLogs oneMonthAgo now |}.

(** The call [logBudgetAlert(period, actual, threshold)]: it only writes a
    warning and posts a webhook. *)
Record BudgetAlert := { alert_period : Period; actual : Q; threshold : Q }.

(** [logAPICall]: the log is pushed, then the daily cost is read at clock
    reading [now]; the result is the new array and the alert raised, if
    any. *)
Definition logAPICall (log : APICallLog) (now : Z) (costLogs : logs)
  : logs * option BudgetAlert :=
  let costLogs := (costLogs ++ [log])%list in
  let dailyCost := calculateDailyCost costLogs now in
  let DAILY_BUDGET_THRESHOLD := 3 in
  (costLogs,
   if negb (Qle_bool dailyCost DAILY_BUDGET_THRESHOLD)
   then Some {| alert_period := daily; actual := dailyCost; threshold := DAILY_BUDGET_THRESHOLD |}
   else None).

Definition model_name (m : Costs.ClaudeModel) : string :=
  match m with Costs.haiku => "haiku" | Costs.sonnet => "sonnet" end.

Record ClaudeCallParams := {
  cp_model : Costs.ClaudeModel;
  cp_inputTokens : Q;
  cp_outputTokens : Q;
  cp_cachedTokens : Q;
  cp_cacheHit : bool;
  cp_userId : option string;
  cp_queryId : option string;
  cp_success : bool;
  cp_error : option string
}.

(** The record [logClaudeCall] logs, [now] being its [Date.now()]. *)
Definition claude_log (params : ClaudeCallParams) (now : Z) : APICallLog :=
  {| timestamp := now;
     service := claude;
     model := Some (model_name (cp_model params));
     endpoint := "/api/ai/chat";
     inputTokens := Some (cp_inputTokens params);
     outputTokens := Some (cp_outputTokens params);
     cachedTokens := Some (cp_cachedTokens params);
     cacheHit := cp_cacheHit params;
     estimatedCost := Costs.calculateClaudeCost (cp_inputTokens params)
                        (cp_outputTokens params) (cp_cachedTokens params) (cp_model params);
     userId := cp_userId params;
     queryId := cp_queryId params;
     success := cp_success params;
     error := cp_error params |}.

(** [now1] is the timestamp read by [logClaudeCall], [now2] the later
    reading in [calculateDailyCost]. *)
Definition logClaudeCall (params : ClaudeCallParams) (now1 now2 : Z) (costLogs : logs)
  : logs * option BudgetAlert :=
  logAPICall (claude_log params now1) now2 costLogs.

Record TavilyCallParams := {
  tp_cached : bool;
  tp_userId : option string;
  tp_queryId : option string;
  tp_success : bool;
  tp_error : option string
}.

Definition tavily_log (params : TavilyCallParams) (now : Z) : APICallLog :=
  {| timestamp := now;
     service := tavily;
     model := None;
     endpoint := "/api/documentation/research";
     inputTokens := None;
     outputTokens := None;
     cachedTokens := None;
     cacheHit := tp_cached params;
     estimatedCost := calculateTavilyCost (tp_cached params);
     userId := tp_userId params;
     queryId := tp_queryId params;
     success := tp_success params;
     error := tp_error params |}.

Definition logTavilyCall (params : TavilyCallParams) (now1 now2 : Z) (costLogs : logs)
  : logs * option BudgetAlert :=
  logAPICall (tavily_log params now1) now2 costLogs.

(** JavaScript truthiness of an optional number: [undefined] and [0] are
    falsy. *)
Definition truthy_num (o : option Z) : bool :=
  match o with Some n => negb (n =? 0)%Z | None => false end.

Definition exportCostLogs (startTime endTime : option Z) (costLogs : logs)
  : list APICallLog :=
  if negb (truthy_num startTime) && negb (truthy_num endTime) then costLogs
  else List.filter (fun log =>
         if truthy_num startTime && (timestamp log <? default 0 startTime)%Z then false
         else if truthy_num endTime && (default 0 endTime <? timestamp log)%Z then false
         else true) costLogs.

(** [cleanupOldLogs] at clock reading [now]: the array after it. *)
Definition cleanupOldLogs (now : Z) (costLogs : logs) : logs :=
  let thirtyDaysAgo := (now - 30 * 24 * 60 * 60 * 1000)%Z in
  List.filter (fun log => (thirtyDaysAgo <=? timestamp log)%Z) costLogs.

Inductive OnTrack := under | over | on_target.

Record Projections := {
  dailyProjected : Q;
  monthlyProjected : Q;
  onTrackFor : OnTrack;
  targetBudget : Q
}.

Definition getProjections (costLogs : logs) (now : Z) : Projections :=
  let dailyCost := calculateDailyCost costLogs now in
  let monthlyProjected := dailyCost * 30 in
  let targetBudget := 87 in
  let onTrackFor :=
    if negb (Qle_bool (targetBudget * (9 # 10)) monthlyProjected) then under
    else if negb (Qle_bool monthlyProjected (targetBudget * (11 # 10))) then over
    else on_target in
  {| dailyProjected := dailyCost; monthlyProjected := monthlyProjected;
     onTrackFor := onTrackFor; targetBudget := targetBudget |}.

(** Every log comes from [logClaudeCall] or [logTavilyCall]. *)
Definition logged_call (log : APICallLog) : Prop :=
  (∃ p t, log = claude_log p t) ∨ (∃ p t, log = tavily_log p t).

End Tracker.

(** ** The chat route ([app/api/ai/chat/route.ts]) *)
Module ChatRoute.

(** [s.includes(sub)]. *)
Definition includes (sub s : string) : bool :=
  match String.index 0 sub s with Some _ => true | None => false end.

(** [modelConfig.model.includes('haiku') ? 'haiku' : 'sonnet']: the model
    the call is logged under. *)
Definition modelType (modelConfig : Router.ModelConfig) : Costs.ClaudeModel :=
  if includes "haiku" (Router.model modelConfig) then Costs.haiku else Costs.sonnet.

(** [extractPageContext(`Current Page: ${frontmatter.title}\n\n${content}`, 2000)];
    [title] is the interpolated title. *)
Definition page_context (title content : string) : string :=
  Prompt.extractPageContext ("Current Page: " ++ title ++ nl ++ nl ++ content) 2000.

(** The request body sent for [sanitizedMessage]; [page] is the title and
    body of the page when it was read, [None] without a slug or when
    reading failed. *)
Definition chat_request (sanitizedMessage : string) (page : option (string * string))
  : Prompt.CachedRequest :=
  let pageContext := match page with
                     | Some (t, c) => Some (page_context t c)
                     | None => None
                     end in
  let modelConfig := Router.routeQuery sanitizedMessage None in
  Prompt.buildCachedRequest (Router.model modelConfig) sanitizedMessage
    (Router.maxTokens modelConfig) pageContext None.

End ChatRoute.

(** ** Sample inputs *)

(** A chapter directory used by the witnesses: [a.md] links to the page
    [holy-fool], which has no file, and to [b] through its frontmatter;
    [b.md] links back to [a]; [notes.txt] is skipped. *)
Definition fm_none : Graph.Frontmatter :=
  {| Graph.fm_title := None; Graph.fm_description := None; Graph.fm_category := None;
     Graph.fm_keywords := None; Graph.fm_related := None; Graph.fm_seeAlso := None |}.

Definition sample_files : list Graph.ChapterFile :=
  [ {| Graph.file_name := "a.md";
       Graph.file_frontmatter :=
         {| Graph.fm_title := Some "A"; Graph.fm_description := None;
            Graph.fm_category := Some "history"; Graph.fm_keywords := None;
            Graph.fm_related := Some ["b"]; Graph.fm_seeAlso := None |}%list;
       Graph.file_content := "On [[Holy Fool]] and [[Saloi|Byzantine Saloi]]." |};
    {| Graph.file_name := "b.md"; Graph.file_frontmatter := fm_none;
       Graph.file_content := "Back to [A](/wiki/a)." |};
    {| Graph.file_name := "notes.txt"; Graph.file_frontmatter := fm_none;
       Graph.file_content := "/wiki/c" |} ]%list.

(** A stored search result, as [searchWithTavily] builds it: its [query]
    field is the query searched for. *)
Definition sample_result (q : string) : Cache.TavilySearchResult :=
  {| Cache.res_query := q; Cache.results := []; Cache.cached := false;
     Cache.timestamp := 0%Z |}.

(** Supplied selected text is longer than 100 characters. *)
Definition long_selection (sel : option string) : Prop :=
  ∃ t, sel = Some t ∧ (100 < String.length t)%nat.

(** A 25-word query with no pattern match. *)
Definition query25 : string :=
  "tell me a story about the old saints of the desert and their many odd yet holy habits over long years in distant lands far".

(** A cache holding the results for two queries, stored at times 0 and
    600000000. *)
Definition sample_store : Cache.store :=
  Cache.setCachedResult (Cache.with_query "Holy fools") (sample_result "Holy fools") 600000000
    (Cache.setCachedResult (Cache.with_query "Byzantine saloi")
       (sample_result "Byzantine saloi") 0 []).

(** [sample_files] with a third page [c.md] in the category of [a.md]. *)
Definition sample_history_files : list Graph.ChapterFile :=
  (sample_files ++
   [ {| Graph.file_name := "c.md";
        Graph.file_frontmatter :=
          {| Graph.fm_title := None; Graph.fm_description := None;
             Graph.fm_category := Some "history"; Graph.fm_keywords := None;
             Graph.fm_related := None; Graph.fm_seeAlso := None |};
        Graph.file_content := "" |} ])%list.

(** A Haiku call with 1000 of its 1200 input tokens cached, and an
    uncached Tavily search. *)
Definition sample_claude_params : Tracker.ClaudeCallParams :=
  {| Tracker.cp_model := Costs.haiku; Tracker.cp_inputTokens := 1200;
     Tracker.cp_outputTokens := 300; Tracker.cp_cachedTokens := 1000;
     Tracker.cp_cacheHit := true; Tracker.cp_userId := None; Tracker.cp_queryId := None;
     Tracker.cp_success := true; Tracker.cp_error := None |}.

Definition sample_tavily_params : Tracker.TavilyCallParams :=
  {| Tracker.tp_cached := false; Tracker.tp_userId := None; Tracker.tp_queryId := None;
     Tracker.tp_success := true; Tracker.tp_error := None |}.

(** The cost log after these two calls, made at times 1000 and 1500. *)
Definition sample_logs : Tracker.logs :=
  [Tracker.claude_log sample_claude_params 1000; Tracker.tavily_log sample_tavily_params 1500]%list.

(** ** Auxiliary predicates of the proofs *)

(** The character before the rest of the input once [w] is consumed. *)
Fixpoint last_opt (prev : option ascii) (w : string) : option ascii :=
  match w with
  | EmptyString => prev
  | String c w' => last_opt (Some c) w'
  end.

(** The context [extractPageContext] accumulates is empty or a text of at
    most [maxChars] characters followed by a newline. *)
Definition acc_inv (maxChars : nat) (ctx : string) : Prop :=
  ctx = EmptyString ∨ ∃ y, ctx = (y ++ nl)%string ∧ (String.length y <= maxChars)%nat.

(** Every loaded page has a forward-link entry holding its frontmatter links. *)
Definition load_inv (st : gmap string Graph.WikiPage * gmap string (gset string)) : Prop :=
  ∀ k, (st.1 !! k = None ↔ st.2 !! k = None)
       ∧ ∀ page, st.1 !! k = Some page →
           ∃ f, st.2 !! k = Some f
                ∧ ∀ x, In x (Graph.list_or_empty (Graph.related page) ++ Graph.list_or_empty (Graph.seeAlso page))%list →
                       x ∈ f.

(** The three budget bands of [getProjections], from lowest to highest. *)
Definition track_rank (t : Tracker.OnTrack) : nat :=
  match t with Tracker.under => 0 | Tracker.on_target => 1 | Tracker.over => 2 end.

(** * Proofs *)

(** ** Link extraction *)
Module LinksFacts.
Import Links.


Lemma length_append (a b : string) :
  String.length (a ++ b) = (String.length a + String.length b)%nat.
Proof. induction a as [|c a IH]; simpl; [done|]. by rewrite IH. Qed.

Lemma append_empty_r (a : string) : (a ++ "")%string = a.
Proof. induction a as [|c a IH]; simpl; [done|]. by rewrite IH. Qed.

Lemma take_while_app p (a b : string) :
  all_chars p a = true →
  take_while p (a ++ b) = ((a ++ (take_while p b).1)%string, (take_while p b).2).
Proof.
  induction a as [|c a IH]; simpl; intros H.
  - by destruct (take_while p b).
  - apply andb_prop in H as [Hc Ha]. rewrite Hc, IH by done. done.
Qed.

Lemma take_while_stop p c (b : string) :
  p c = false → take_while p (String c b) = (EmptyString, String c b).
Proof. simpl. intros ->. done. Qed.

Lemma match_wiki_at_other c (x : string) :
  no_lbracket c = true → match_wiki_at (String c x) = None.
Proof.
  unfold no_lbracket, is_char, code.
  destruct c as [[] [] [] [] [] [] [] []]; simpl; intros H; try done.
Qed.

Lemma match_wiki_at_piped (d sl post : string) :
  d ≠ EmptyString → all_chars not_rbracket_pipe d = true →
  sl ≠ EmptyString → all_chars not_rbracket sl = true →
  match_wiki_at ("[[" ++ d ++ "|" ++ sl ++ "]]" ++ post) = Some ((d, Some sl), post).
Proof.
  intros Hd Hd' Hs Hs'. simpl.
  rewrite take_while_app by done.
  rewrite take_while_stop by reflexivity. simpl. rewrite append_empty_r.
  destruct d as [|c d]; [done|].
  rewrite take_while_app by done.
  rewrite take_while_stop by reflexivity. simpl. rewrite append_empty_r.
  destruct sl as [|c' sl]; done.
Qed.

Lemma match_wiki_at_single (d post : string) :
  d ≠ EmptyString → all_chars not_rbracket_pipe d = true →
  match_wiki_at ("[[" ++ d ++ "]]" ++ post) = Some ((d, None), post).
Proof.
  intros Hd Hd'. simpl.
  rewrite take_while_app by done.
  rewrite take_while_stop by reflexivity. simpl. rewrite append_empty_r.
  destruct d as [|c d]; done.
Qed.

Lemma scan_all_skip (pre s : string) fuel :
  all_chars no_lbracket pre = true → (String.length pre < fuel)%nat →
  scan_all fuel match_wiki_at (pre ++ s) = scan_all (fuel - String.length pre) match_wiki_at s.
Proof.
  revert fuel. induction pre as [|c pre IH]; intros fuel H Hf; simpl.
  - by rewrite Nat.sub_0_r.
  - apply andb_prop in H as [Hc H]. simpl in Hf.
    destruct fuel as [|f]; [lia|].
    change ((String c pre ++ s)%string) with (String c (pre ++ s)).
    cbn [scan_all]. rewrite match_wiki_at_other by done.
    replace (S f - String.length (String c pre))%nat with (f - String.length pre)%nat
      by (simpl; lia).
    apply IH; [done|lia].
Qed.

Lemma match_all_wiki_link (pre link : string) a rest :
  all_chars no_lbracket pre = true →
  match_wiki_at link = Some (a, rest) →
  In a (match_all match_wiki_at (pre ++ link)).
Proof.
  intros Hpre Hl. unfold match_all.
  rewrite scan_all_skip by (done || (rewrite length_append; lia)).
  rewrite length_append.
  replace (S (String.length pre + String.length link) - String.length pre)%nat
    with (S (String.length link)) by lia.
  simpl. rewrite Hl. by left.
Qed.

Lemma dedup_go_In seen (xs : list string) x :
  In x xs → In x seen ∨ In x (dedup_go seen xs).
Proof.
  revert seen. induction xs as [|y xs IH]; intros seen Hx; simpl; [done|].
  destruct Hx as [->|Hx].
  - destruct (existsb (String.eqb x) seen) eqn:E.
    + left. apply existsb_exists in E as (z & Hz & Ez).
      apply String.eqb_eq in Ez. by subst.
    + right. by left.
  - destruct (existsb (String.eqb y) seen); [by apply IH|].
    destruct (IH (y :: seen) Hx) as [[<-|H]|H]; simpl; auto.
Qed.

Lemma dedup_In (xs : list string) x : In x xs → In x (dedup xs).
Proof. intros H. destruct (dedup_go_In [] xs x H) as [[]|]; done. Qed.

Lemma raw_pass_keeps (l acc : list string) x :
  In x acc →
  In x (fold_left (fun acc x => if existsb (String.eqb x) acc then acc
                                else (acc ++ [x])%list) l acc).
Proof.
  revert acc. induction l as [|y l IH]; intros acc H; simpl; [done|].
  apply IH. destruct (existsb _ _); [done|]. apply in_or_app. by left.
Qed.

Lemma extract_wiki_In content a :
  In a (match_all match_wiki_at content) →
  In (normalize_slug (wiki_slug a)) (extractWikiLinks content).
Proof.
  intros H. unfold extractWikiLinks. apply dedup_In, raw_pass_keeps.
  apply in_or_app. right. by apply (in_map (fun m => normalize_slug (wiki_slug m))).
Qed.

End LinksFacts.

(** Scanning past text whose wiki-link openings are all closed. *)
Module WikiScanFacts.
Import Links.

Lemma string_append_assoc (a b c : string) : ((a ++ b) ++ c)%string = (a ++ (b ++ c))%string.
Proof. induction a as [|x a IH]; simpl; [done|]. by rewrite IH. Qed.

Lemma is_char_iff (a c : ascii) : is_char (nat_of_ascii a) c = true ↔ c = a.
Proof.
  unfold is_char, code. rewrite Nat.eqb_eq. split; [|by intros ->].
  intros H. by rewrite <- (ascii_nat_embedding c), H, ascii_nat_embedding.
Qed.

Definition suffix (w r : string) : Prop := ∃ z, r = (z ++ w)%string.

Lemma suffix_refl w : suffix w w.
Proof. by exists "". Qed.

Lemma suffix_trans a b c : suffix a b → suffix b c → suffix a c.
Proof.
  intros [z1 ->] [z2 ->]. exists (z2 ++ z1)%string. by rewrite string_append_assoc.
Qed.

Lemma suffix_cons c w : suffix w (String c w).
Proof. by exists (String c ""). Qed.

Lemma suffix_app z w : suffix w (z ++ w).
Proof. by exists z. Qed.

Lemma suffix_length w r : suffix w r → (String.length w <= String.length r)%nat.
Proof. intros [z ->]. rewrite LinksFacts.length_append. lia. Qed.

Lemma has_close_spec r : has_close r = true → ∃ u v, r = (u ++ "]]" ++ v)%string.
Proof.
  induction r as [|c r IH]; simpl; [discriminate|].
  intros [H|H]%orb_true_iff.
  - apply andb_prop in H as [Hc Hd].
    apply (is_char_iff "]") in Hc. subst c.
    destruct r as [|d r']; [discriminate|].
    apply (is_char_iff "]") in Hd. subst d. by exists "", r'.
  - destruct (IH H) as (u & v & ->). by exists (String c u), v.
Qed.

Lemma closed_tail c r : wiki_openings_closed (String c r) = true → wiki_openings_closed r = true.
Proof. simpl. intros H. by apply andb_prop in H as [_ H]. Qed.

Lemma closed_suffix w r : suffix w r → wiki_openings_closed r = true → wiki_openings_closed w = true.
Proof.
  intros [z ->]. induction z as [|c z IH]; simpl; [done|].
  intros H. apply IH. by apply andb_prop in H as [_ H].
Qed.

Lemma closed_open r : wiki_openings_closed (String "[" (String "[" r)) = true → has_close r = true.
Proof. simpl. intros H. by apply andb_prop in H as [H _]. Qed.

Lemma take_while_cons p a x :
  take_while p (String a x)
  = if p a then let '(g, r) := take_while p x in (String a g, r) else (EmptyString, String a x).
Proof. reflexivity. Qed.

(** A first run of [take_while p] over a text holding [\]\]], where [p]
    rejects [\]], stops inside that text. *)
Lemma take_while_close p (Hp : p "]"%char = false) u v s :
  ∃ g z, take_while p (u ++ "]]" ++ v ++ s) = (g, (z ++ s)%string)
         ∧ (u ++ "]]" ++ v)%string = (g ++ z)%string
         ∧ ∃ c z', z = String c z' ∧ p c = false
                   ∧ ((∃ u', z' = (u' ++ "]]" ++ v)%string) ∨ (c = "]"%char ∧ z' = ("]" ++ v)%string)).
Proof.
  induction u as [|a u IH].
  - exists "", ("]]" ++ v)%string. simpl. rewrite Hp. split; [done|]. split; [done|].
    exists "]"%char, ("]" ++ v)%string. split; [done|]. split; [done|]. by right.
  - change ((String a u ++ "]]" ++ v ++ s)%string) with (String a (u ++ "]]" ++ v ++ s)).
    rewrite take_while_cons. destruct (p a) eqn:Ha.
    + destruct IH as (g & z & Ht & He & Hz). rewrite Ht.
      exists (String a g), z. split; [done|]. split; [|done].
      change ((String a u ++ "]]" ++ v)%string) with (String a (u ++ "]]" ++ v)). by rewrite He.
    + exists "", (String a (u ++ "]]" ++ v)).
      split; [simpl; by rewrite !string_append_assoc|]. split; [reflexivity|].
      exists a, (u ++ "]]" ++ v)%string. split; [done|]. split; [done|]. left. by exists u.
Qed.

Lemma not_rbracket_pipe_false c : not_rbracket_pipe c = false → c = "]"%char ∨ c = "|"%char.
Proof.
  unfold not_rbracket_pipe. intros H. apply andb_false_iff in H as [H|H];
    apply negb_false_iff in H; [left; by apply (is_char_iff "]" c)|right; by apply (is_char_iff "|" c)].
Qed.

Lemma not_rbracket_false c : not_rbracket c = false → c = "]"%char.
Proof. unfold not_rbracket. intros H. apply negb_false_iff in H. by apply (is_char_iff "]" c). Qed.

Lemma match_wiki_at_bounded r s :
  has_close r = true →
  match_wiki_at ("[[" ++ r ++ s) = None
  ∨ ∃ m w, match_wiki_at ("[[" ++ r ++ s) = Some (m, (w ++ s)%string) ∧ suffix w r.
Proof.
  intros Hc. destruct (has_close_spec r Hc) as (u & v & ->).
  rewrite !string_append_assoc.
  change ("[[" ++ (u ++ "]]" ++ v ++ s))%string
    with (String "[" (String "[" (u ++ "]]" ++ v ++ s))).
  unfold match_wiki_at.
  destruct (take_while_close not_rbracket_pipe eq_refl u v s)
    as (g1 & z & Ht & He & c & z' & -> & Hc' & Hz').
  rewrite Ht. rewrite He.
  assert (Hsz : suffix z' (g1 ++ String c z')).
  { eapply suffix_trans; [apply suffix_cons|apply suffix_app]. }
  destruct g1 as [|g c0]; [by left|].
  set (G := String g c0) in *.
  destruct (not_rbracket_pipe_false c Hc') as [->| ->].
  - (* ]: the link closes here if another ] follows *)
    destruct Hz' as [(u' & ->)|[_ ->]].
    + destruct u' as [|d u''].
      * right. eexists _, ("]" ++ v)%string. split; [simpl; by rewrite ?string_append_assoc|].
        eapply suffix_trans; [|exact Hsz]. apply suffix_cons.
      * destruct (ascii_dec d "]") as [->|Hd].
        -- right. eexists _, (u'' ++ "]]" ++ v)%string. split; [simpl; by rewrite ?string_append_assoc|].
           eapply suffix_trans; [|exact Hsz]. apply suffix_cons.
        -- left. simpl.
           destruct d as [[] [] [] [] [] [] [] []]; try reflexivity. exfalso. by apply Hd.
    + right. eexists _, v. split; [simpl; by rewrite ?string_append_assoc|].
      eapply suffix_trans; [|exact Hsz]. apply suffix_cons.
  - destruct Hz' as [(u' & ->)|[[=] _]].
    simpl. rewrite string_append_assoc. simpl.
    destruct (take_while_close not_rbracket eq_refl u' v s)
      as (g2 & y & Ht2 & He2 & c2 & y' & -> & Hc2 & Hy').
    simpl in Ht2. rewrite Ht2.
    apply not_rbracket_false in Hc2. subst c2.
    assert (Hsy : suffix y' (u' ++ "]]" ++ v)).
    { rewrite He2. eapply suffix_trans; [apply suffix_cons|apply suffix_app]. }
    assert (Hsr : suffix (u' ++ "]]" ++ v) (G ++ String "|" (u' ++ "]]" ++ v))).
    { eapply suffix_trans; [apply suffix_cons|apply suffix_app]. }
    destruct g2 as [|g' c1]; [by left|].
    destruct Hy' as [(u'' & ->)|[_ ->]].
    + destruct u'' as [|d u3].
      * right. eexists _, ("]" ++ v)%string. split; [simpl; by rewrite ?string_append_assoc|].
        eapply suffix_trans; [|exact Hsr]. eapply suffix_trans; [|exact Hsy]. apply suffix_cons.
      * destruct (ascii_dec d "]") as [->|Hd].
        -- right. eexists _, (u3 ++ "]]" ++ v)%string. split; [simpl; by rewrite ?string_append_assoc|].
           eapply suffix_trans; [|exact Hsr]. eapply suffix_trans; [|exact Hsy]. apply suffix_cons.
        -- left. simpl.
           destruct d as [[] [] [] [] [] [] [] []]; try reflexivity. exfalso. by apply Hd.
    + right. eexists _, v. split; [simpl; by rewrite ?string_append_assoc|].
      eapply suffix_trans; [|exact Hsr]. eapply suffix_trans; [|exact Hsy]. apply suffix_cons.
Qed.

Lemma match_wiki_at_lone d x : d ≠ "["%char → match_wiki_at (String "[" (String d x)) = None.
Proof. intros Hd. destruct d as [[] [] [] [] [] [] [] []]; try reflexivity. by exfalso. Qed.

Lemma scan_all_S {A} f (m : string → option (A * string)) s :
  scan_all (S f) m s
  = match m s with
    | Some (a, rest) => a :: scan_all f m rest
    | None => match s with EmptyString => [] | String _ s' => scan_all f m s' end
    end.
Proof. reflexivity. Qed.

Lemma scan_none f c x :
  match_wiki_at (String c x) = None →
  scan_all (S f) match_wiki_at (String c x) = scan_all f match_wiki_at x.
Proof. intros H. by rewrite scan_all_S, H. Qed.

(** Scanning a text whose [\[\[]s are all closed never runs past its end,
    except from a last lone [\[]. *)
Lemma scan_closed n : ∀ pre s fuel,
  (String.length pre <= n)%nat → wiki_openings_closed pre = true →
  (String.length (pre ++ s) < fuel)%nat →
  ∃ xs f' p', scan_all fuel match_wiki_at (pre ++ s)
              = (xs ++ scan_all f' match_wiki_at (p' ++ s))%list
            ∧ (String.length (p' ++ s) < f')%nat
            ∧ (p' = "" ∨ (p' = "[" ∧ suffix "[" pre)).
Proof.
  induction n as [|n IH]; intros pre s fuel Hn Hc Hf.
  - destruct pre; [|simpl in Hn; lia]. exists [], fuel, "". auto.
  - destruct pre as [|c r]; [exists [], fuel, ""; auto|].
    destruct fuel as [|f]; [simpl in Hf; lia|].
    change (String c r ++ s)%string with (String c (r ++ s)) in *.
    assert (Hstep : match_wiki_at (String c (r ++ s)) = None →
      ∃ xs f' p', scan_all (S f) match_wiki_at (String c (r ++ s))
                  = (xs ++ scan_all f' match_wiki_at (p' ++ s))%list
                ∧ (String.length (p' ++ s) < f')%nat
                ∧ (p' = "" ∨ (p' = "[" ∧ suffix "[" (String c r)))).
    { intros Hm. rewrite scan_none by done.
      destruct (IH r s f) as (xs & f' & p' & E & Hl & Hp);
        [simpl in Hn; lia|by apply closed_tail in Hc|simpl in Hf; lia|].
      exists xs, f', p'. split; [done|]. split; [done|].
      destruct Hp as [->|[-> Hp]]; [by left|right]. split; [done|].
      eapply suffix_trans; [exact Hp|apply suffix_cons]. }
    destruct (ascii_dec c "[") as [->|Hc0].
    + destruct r as [|d r'].
      * exists [], (S f), "[". split; [done|]. split; [simpl in *; lia|].
        right. split; [done|apply suffix_refl].
      * change (String d r' ++ s)%string with (String d (r' ++ s)) in *.
        destruct (ascii_dec d "[") as [->|Hd]; [|apply Hstep, match_wiki_at_lone, Hd].
        destruct (match_wiki_at_bounded r' s (closed_open r' Hc)) as [Hm|(m & w & Hm & Hw)];
          [by apply Hstep|].
        rewrite scan_all_S. change ("[[" ++ r' ++ s)%string with (String "[" (String "[" (r' ++ s))) in Hm.
        rewrite Hm.
        assert (Hw' : suffix w (String "[" (String "[" r'))).
        { eapply suffix_trans; [exact Hw|]. eapply suffix_trans; apply suffix_cons. }
        pose proof (suffix_length _ _ Hw) as Hlw.
        destruct (IH w s f) as (xs & f' & p' & E & Hl & Hp);
          [simpl in Hn; lia|by apply (closed_suffix _ _ Hw')|
           rewrite LinksFacts.length_append; simpl in Hf; rewrite LinksFacts.length_append in Hf; lia|].
        exists (m :: xs), f', p'. rewrite E. split; [done|]. split; [done|].
        destruct Hp as [->|[-> Hp]]; [by left|right]. split; [done|].
        by eapply suffix_trans.
    + apply Hstep, LinksFacts.match_wiki_at_other. unfold no_lbracket.
      apply negb_true_iff, not_true_iff_false. intros H. by apply (is_char_iff "[" c) in H.
Qed.

Lemma match_all_after_closed pre t :
  wiki_openings_closed pre = true →
  ∃ xs f' p', match_all match_wiki_at (pre ++ t)
              = (xs ++ scan_all f' match_wiki_at (p' ++ t))%list
            ∧ (String.length (p' ++ t) < f')%nat
            ∧ (p' = "" ∨ (p' = "[" ∧ suffix "[" pre)).
Proof. intros H. apply (scan_closed (String.length pre)); [done|done|unfold match_all; lia]. Qed.

Lemma scan_all_first {A} f (m : string → option (A * string)) u a rest :
  (0 < f)%nat → m u = Some (a, rest) → In a (scan_all f m u).
Proof. intros Hf Hm. destruct f as [|f]; [lia|]. rewrite scan_all_S, Hm. by left. Qed.

Lemma piped_link_in pre d sl post :
  wiki_openings_closed pre = true →
  d ≠ EmptyString → all_chars not_rbracket_pipe d = true →
  sl ≠ EmptyString → all_chars not_rbracket sl = true →
  ∃ d', In (d', Some sl) (match_all match_wiki_at (pre ++ "[[" ++ d ++ "|" ++ sl ++ "]]" ++ post)).
Proof.
  intros Hc Hd Hd' Hs Hs'.
  destruct (match_all_after_closed pre ("[[" ++ d ++ "|" ++ sl ++ "]]" ++ post) Hc)
    as (xs & f' & p' & -> & Hl & [->|[-> _]]).
  - exists d. apply in_or_app. right. eapply scan_all_first; [lia|].
    by apply LinksFacts.match_wiki_at_piped.
  - exists (String "[" d). apply in_or_app. right. eapply scan_all_first; [lia|].
    change ("[" ++ "[[" ++ d ++ "|" ++ sl ++ "]]" ++ post)%string
      with ("[[" ++ String "[" d ++ "|" ++ sl ++ "]]" ++ post)%string.
    by apply LinksFacts.match_wiki_at_piped.
Qed.

Lemma single_link_in pre d post :
  wiki_openings_closed pre = true → (∀ z, pre ≠ (z ++ "[")%string) →
  d ≠ EmptyString → all_chars not_rbracket_pipe d = true →
  In (d, None) (match_all match_wiki_at (pre ++ "[[" ++ d ++ "]]" ++ post)).
Proof.
  intros Hc Hz Hd Hd'.
  destruct (match_all_after_closed pre ("[[" ++ d ++ "]]" ++ post) Hc)
    as (xs & f' & p' & -> & Hl & [->|[-> [z Hp]]]); [|by destruct (Hz z)].
  apply in_or_app. right. eapply scan_all_first; [lia|].
  by apply LinksFacts.match_wiki_at_single.
Qed.

End WikiScanFacts.


(** ** Prompt assembly *)
Module PromptFacts.
Import Prompt.

Lemma length_substring_0 (n : nat) (s : string) :
  (n <= String.length s)%nat → String.length (substring 0 n s) = n.
Proof.
  revert n. induction s as [|c s IH]; intros n H; simpl in *.
  - destruct n; [done|lia].
  - destruct n; [done|]. simpl. rewrite IH; lia.
Qed.

Lemma truncateContext_spec (text : string) (n : nat) :
  (3 <= n)%nat →
  (String.length (truncateContext text n) <= n)%nat
  ∧ ((String.length text <= n)%nat → truncateContext text n = text)
  ∧ ((n < String.length text)%nat →
     truncateContext text n = substring 0 (n - 3) text ++ "...").
Proof.
  intros Hn. unfold truncateContext.
  destruct (String.length text <=? n)%nat eqn:E.
  - apply Nat.leb_le in E. split; [done|]. split; [done|]. lia.
  - apply Nat.leb_gt in E. split; [|split; [lia|done]].
    rewrite LinksFacts.length_append, length_substring_0 by lia. simpl. lia.
Qed.

End PromptFacts.


(** ** The link graph *)
Module GraphFacts.
Import Graph.


Lemma add_backlink_lookup bl f t t' :
  add_backlink bl f t !! t' =
    if decide (t = t') then Some ({[f]} ∪ default ∅ (bl !! t)) else bl !! t'.
Proof.
  unfold add_backlink. destruct (bl !! t) as [b|] eqn:E; case_decide; subst.
  - rewrite lookup_insert_eq; rewrite ?E; done.
  - by rewrite lookup_insert_ne.
  - by rewrite !lookup_insert_eq.
  - by rewrite !lookup_insert_ne.
Qed.

Lemma add_backlink_keeps bl f t x y :
  has_edge bl x y → has_edge (add_backlink bl f t) x y.
Proof.
  intros (b & Hb & Hx). unfold has_edge. rewrite add_backlink_lookup.
  case_decide; subst.
  - eexists; split; [done|]. rewrite Hb. set_solver.
  - eauto.
Qed.

Lemma add_backlink_new bl f t : has_edge (add_backlink bl f t) f t.
Proof.
  unfold has_edge. rewrite add_backlink_lookup, decide_True by done.
  eexists; split; [done|]. set_solver.
Qed.

Lemma inner_keeps bl f (ts : list string) x y :
  has_edge bl x y → has_edge (foldl (fun b t => add_backlink b f t) bl ts) x y.
Proof.
  revert bl. induction ts as [|t ts IH]; intros bl H; simpl; [done|].
  apply IH, add_backlink_keeps, H.
Qed.

Lemma inner_adds bl f (ts : list string) t :
  t ∈ ts → has_edge (foldl (fun b t => add_backlink b f t) bl ts) f t.
Proof.
  revert bl. induction ts as [|t' ts IH]; intros bl Ht; simpl.
  - by apply not_elem_of_nil in Ht.
  - apply elem_of_cons in Ht as [->|Ht].
    + apply inner_keeps, add_backlink_new.
    + by apply IH.
Qed.

Lemma outer_keeps (l : list (string * gset string)) bl x y :
  has_edge bl x y →
  has_edge (foldl (fun b '(fromSlug, toSlugs) => add_backlinks_from b fromSlug toSlugs) bl l) x y.
Proof.
  revert bl. induction l as [|[f ts] l IH]; intros bl H; simpl; [done|].
  apply IH. unfold add_backlinks_from. by apply inner_keeps.
Qed.

Lemma outer_adds (l : list (string * gset string)) bl p s q :
  (p, s) ∈ l → q ∈ s →
  has_edge (foldl (fun b '(fromSlug, toSlugs) => add_backlinks_from b fromSlug toSlugs) bl l) p q.
Proof.
  revert bl. induction l as [|[f ts] l IH]; intros bl Hin Hq; simpl.
  - by apply not_elem_of_nil in Hin.
  - apply elem_of_cons in Hin as [Heq|Hin].
    + injection Heq as -> ->. apply outer_keeps. unfold add_backlinks_from.
      apply inner_adds. by apply elem_of_elements.
    + by apply IH.
Qed.

Lemma build_backlinks_transpose fwd p q s :
  fwd !! p = Some s → q ∈ s → has_edge (build_backlinks fwd) p q.
Proof.
  intros Hp Hq. unfold build_backlinks. eapply outer_adds; [|done].
  by apply elem_of_map_to_list.
Qed.


Lemma load_file_keyed st file :
  pages_keyed st.1 → pages_keyed (load_file st file).1.
Proof.
  destruct st as [pgs fwd]. unfold load_file. simpl. intros H.
  destruct (negb _); [done|]. simpl. intros k p Hk.
  rewrite lookup_insert in Hk. case_decide; [|by apply H].
  subst. injection Hk as <-. done.
Qed.

Lemma load_files_keyed files st :
  pages_keyed st.1 → pages_keyed (foldl load_file st files).1.
Proof.
  revert st. induction files as [|f files IH]; intros st H; simpl; [done|].
  by apply IH, load_file_keyed.
Qed.

Lemma buildLinkGraph_pages_keyed files : pages_keyed (pages (buildLinkGraph files)).
Proof.
  unfold buildLinkGraph.
  pose proof (load_files_keyed files (∅, ∅)) as H.
  destruct (foldl load_file (∅, ∅) files) as [pgs fwd]. simpl in *.
  apply H. intros k p Hk. by rewrite lookup_empty in Hk.
Qed.

Lemma filter_defined_In {A} (xs : list (option A)) x :
  In x (filter_defined xs) ↔ In (Some x) xs.
Proof.
  induction xs as [|[y|] xs IH]; simpl; [tauto| |].
  - rewrite IH. split; intros [H|H]; auto; left; congruence.
  - rewrite IH. split; [auto|]. intros [H|H]; [discriminate|done].
Qed.

End GraphFacts.

(** * Claims *)

(** C10 (claim, as stated): every two-segment link [[display|slug]] in a
    body contributes its normalized slug. Refuted: an earlier unclosed
    [[ swallows the link; in [[a|b [[Label|Holy Fool]] the extractor reads
    one link whose second segment is [b [[Label|Holy Fool] and records
    [b-[[label|holy-fool], not [holy-fool]. *)
Lemma extractWikiLinks_piped_slug_claim_fails :
  Links.extractWikiLinks ("[[a|b " ++ "[[Label|Holy Fool]]") = ["b-[[label|holy-fool"]%list
  ∧ ¬ In "holy-fool" (Links.extractWikiLinks ("[[a|b " ++ "[[Label|Holy Fool]]")).
Proof.
  assert (E : Links.extractWikiLinks ("[[a|b " ++ "[[Label|Holy Fool]]") = ["b-[[label|holy-fool"]%list)
    by (vm_compute; reflexivity).
  split; [exact E|]. rewrite E. intros [H|[]]. discriminate H.
Qed.

(** C10 (amended): when every [[ of the text before the link is followed,
    still before it, by ]], a two-segment link [[display|slug]] contributes
    its second segment lower-cased with whitespace runs turned into single
    hyphens ([Links.normalize_slug]); a one-segment link [[slug]] goes
    through the same normalization when the text before it does not end in
    [[]; and [[Label|Holy Fool]] yields [holy-fool]. *)
Theorem extractWikiLinks_piped_slug_normalized (pre display sl post : string) :
  Links.wiki_openings_closed pre = true →
  display ≠ EmptyString → Links.all_chars Links.not_rbracket_pipe display = true →
  sl ≠ EmptyString → Links.all_chars Links.not_rbracket sl = true →
  In (Links.normalize_slug sl)
     (Links.extractWikiLinks (pre ++ "[[" ++ display ++ "|" ++ sl ++ "]]" ++ post))
  ∧ ((∀ z, pre ≠ (z ++ "[")%string) →
     In (Links.normalize_slug display)
       (Links.extractWikiLinks (pre ++ "[[" ++ display ++ "]]" ++ post)))
  ∧ Links.extractWikiLinks "[[Label|Holy Fool]]" = ["holy-fool"]%list.
Proof.
  intros Hpre Hd Hd' Hs Hs'. split; [|split].
  - destruct (WikiScanFacts.piped_link_in pre display sl post Hpre Hd Hd' Hs Hs') as (d' & Hin).
    destruct sl as [|c sl]; [done|].
    change (Links.normalize_slug (String c sl))
      with (Links.normalize_slug (Links.wiki_slug (d', Some (String c sl)))).
    by apply LinksFacts.extract_wiki_In.
  - intros Hz.
    change (Links.normalize_slug display)
      with (Links.normalize_slug (Links.wiki_slug (display, None))).
    apply LinksFacts.extract_wiki_In.
    by apply WikiScanFacts.single_link_in.
  - vm_compute. reflexivity.
Qed.

Lemma extractWikiLinks_piped_slug_normalized_witness :
  Links.normalize_slug "Holy Fool" = "holy-fool"
  ∧ In (Links.normalize_slug "Holy Fool")
       (Links.extractWikiLinks ("[[A]] and " ++ "[[" ++ "Label" ++ "|" ++ "Holy Fool" ++ "]]" ++ ".")).
Proof.
  split; [reflexivity|].
  refine (proj1 (extractWikiLinks_piped_slug_normalized "[[A]] and " "Label" "Holy Fool" "."
                   _ _ _ _ _)); (reflexivity || discriminate).
Defined.

(** C1: in every graph [buildLinkGraph] returns, [q ∈ forwardLinks[p]]
    implies [p ∈ backlinks[q]], whether or not [q] has a page. *)
Theorem buildLinkGraph_backlinks_transpose (files : list Graph.ChapterFile)
    (p q : string) (s : gset string) :
  Graph.forwardLinks (Graph.buildLinkGraph files) !! p = Some s → q ∈ s →
  ∃ b, Graph.backlinks (Graph.buildLinkGraph files) !! q = Some b ∧ p ∈ b.
Proof.
  unfold Graph.buildLinkGraph.
  destruct (foldl Graph.load_file (∅, ∅) files) as [pgs fwd]. simpl.
  apply GraphFacts.build_backlinks_transpose.
Qed.

Lemma buildLinkGraph_backlinks_transpose_witness :
  Graph.pages (Graph.buildLinkGraph sample_files) !! "holy-fool" = None
  ∧ ∃ b, Graph.backlinks (Graph.buildLinkGraph sample_files) !! "holy-fool" = Some b
         ∧ "a" ∈ b.
Proof.
  split; [vm_compute; reflexivity|].
  apply (buildLinkGraph_backlinks_transpose sample_files "a" "holy-fool"
           {["holy-fool"; "byzantine-saloi"; "b"]}).
  - vm_compute. reflexivity.
  - set_solver.
Defined.

(** C2: on any graph, every page [getBacklinks] returns is a record of
    [pages], stored under a source of the slug's backlinks (sources without
    a page are dropped); on a graph built by [buildLinkGraph] it is the
    record [pages] holds under its own slug; and on any graph, a slug with no backlinks
    entry gives no backlinks, a slug with no page gives no related and no
    category pages, and a page with no category gives no category pages. *)
Theorem getBacklinks_pages_and_empty_views :
  (∀ (g : Graph.LinkGraph) (s : string) (p : Graph.WikiPage),
     In p (Graph.getBacklinks g s) →
     ∃ src b, Graph.backlinks g !! s = Some b ∧ src ∈ b ∧ Graph.pages g !! src = Some p)
  ∧ (∀ (files : list Graph.ChapterFile) (s : string) (p : Graph.WikiPage),
     In p (Graph.getBacklinks (Graph.buildLinkGraph files) s) →
     Graph.pages (Graph.buildLinkGraph files) !! Graph.slug p = Some p)
  ∧ (∀ (g : Graph.LinkGraph) (s : string),
       Graph.backlinks g !! s = None → Graph.getBacklinks g s = [])
  ∧ (∀ (g : Graph.LinkGraph) (s : string),
       Graph.pages g !! s = None →
       Graph.getRelatedPages g s = [] ∧ Graph.getCategoryPages g s = [])
  ∧ (∀ (g : Graph.LinkGraph) (s : string) (page : Graph.WikiPage),
       Graph.pages g !! s = Some page → Graph.category page = None →
       Graph.getCategoryPages g s = []).
Proof.
  split; [|split; [|split; [|split]]].
  - intros g s p Hin. unfold Graph.getBacklinks in Hin.
    apply GraphFacts.filter_defined_In, in_map_iff in Hin as (x & Hx & Hel).
    destruct (Graph.backlinks g !! s) as [b|] eqn:E; simpl in Hel; [|done].
    exists x, b. split; [done|]. split; [|done].
    by apply elem_of_elements, list_elem_of_In.
  - intros files s p Hin. unfold Graph.getBacklinks in Hin.
    apply GraphFacts.filter_defined_In, in_map_iff in Hin as (x & Hx & _).
    pose proof (GraphFacts.buildLinkGraph_pages_keyed files x p Hx) as Hk.
    by rewrite Hk.
  - intros g s H. unfold Graph.getBacklinks. rewrite H. done.
  - intros g s H. unfold Graph.getRelatedPages, Graph.getCategoryPages.
    by rewrite H.
  - intros g s page H Hc. unfold Graph.getCategoryPages. rewrite H, Hc. done.
Qed.

Lemma getBacklinks_pages_and_empty_views_witness :
  Graph.getBacklinks (Graph.buildLinkGraph sample_files) "holy-fool" <> []
  ∧ (∀ p, In p (Graph.getBacklinks (Graph.buildLinkGraph sample_files) "holy-fool") →
          Graph.pages (Graph.buildLinkGraph sample_files) !! Graph.slug p = Some p)
  ∧ Graph.getBacklinks (Graph.buildLinkGraph sample_files) "zzz" = []
  ∧ Graph.getRelatedPages (Graph.buildLinkGraph sample_files) "holy-fool" = []
  ∧ Graph.getCategoryPages (Graph.buildLinkGraph sample_files) "b" = [].
Proof.
  split; [vm_compute; discriminate|].
  pose proof getBacklinks_pages_and_empty_views as (_ & H1 & H2 & H3 & H4).
  split; [apply H1|].
  split; [apply H2; vm_compute; reflexivity|].
  split; [apply (H3 _ "holy-fool"); vm_compute; reflexivity|].
  apply (H4 _ "b" (Graph.Build_WikiPage "b" "b" None None (Some []) (Some []) (Some []))%list);
    vm_compute; reflexivity.
Defined.

(** ** The research cache *)

Lemma set_empty_store p r t :
  Cache.setCachedResult p r t [] =
    [(Cache.getCacheKey p, {| Cache.data := r; Cache.expiresAt := (t + Cache.CACHE_TTL)%Z |})].
Proof. reflexivity. Qed.

Lemma find_similar_single q now k r exp :
  (now <= exp)%Z →
  Cache.find_similar_go q now [(k, {| Cache.data := r; Cache.expiresAt := exp |})]
                          [(k, {| Cache.data := r; Cache.expiresAt := exp |})] =
    if Qle_bool Cache.SIMILARITY_THRESHOLD (Cache.calculateSimilarity q (Cache.res_query r))
    then (Some {| Cache.data := r; Cache.expiresAt := exp |},
          [(k, {| Cache.data := r; Cache.expiresAt := exp |})])
    else (None, [(k, {| Cache.data := r; Cache.expiresAt := exp |})]).
Proof.
  intros H. simpl. replace (exp <? now)%Z with false by (symmetry; apply Z.ltb_ge; lia).
  by destruct (Qle_bool _ _).
Qed.

(** C3 (claim, as stated): "byzantine  SALOI" is answered on the exact-key
    path. Refuted: the normalized queries differ (the double space stays),
    so the exact tier misses. *)
Lemma research_cache_variant_exact_claim_fails :
  Cache.getCacheKey (Cache.with_query "byzantine  SALOI")
    ≠ Cache.getCacheKey (Cache.with_query "Byzantine saloi")
  ∧ Cache.exact_hit (Cache.with_query "byzantine  SALOI") 1
      (Cache.setCachedResult (Cache.with_query "Byzantine saloi")
         (sample_result "Byzantine saloi") 0 []) = None.
Proof. split; [vm_compute; discriminate|vm_compute; reflexivity]. Qed.

(** C3 (amended): after storing, in an empty cache, a result for
    "Byzantine saloi" (whose own query is that string), a lookup for
    "byzantine  SALOI" within the TTL misses the exact tier, because the
    keys differ, and returns the result, marked cached, through the
    similarity tier (the word sets are equal). *)
Theorem research_cache_variant_hits_by_similarity
    (r : Cache.TavilySearchResult) (t now1 now2 : Z) :
  Cache.res_query r = "Byzantine saloi" →
  (t <= now1 <= now2)%Z → (now2 < t + Cache.CACHE_TTL)%Z →
  Cache.getCacheKey (Cache.with_query "byzantine  SALOI")
    ≠ Cache.getCacheKey (Cache.with_query "Byzantine saloi")
  ∧ Cache.exact_hit (Cache.with_query "byzantine  SALOI") now1
      (Cache.setCachedResult (Cache.with_query "Byzantine saloi") r t []) = None
  ∧ Cache.getCachedResult (Cache.with_query "byzantine  SALOI") now1 now2
      (Cache.setCachedResult (Cache.with_query "Byzantine saloi") r t [])
    = (Some (Cache.mark_cached r),
       Cache.setCachedResult (Cache.with_query "Byzantine saloi") r t []).
Proof.
  intros Hq Ht Hexp.
  assert (Hk : Cache.getCacheKey (Cache.with_query "byzantine  SALOI")
               ≠ Cache.getCacheKey (Cache.with_query "Byzantine saloi"))
    by (vm_compute; discriminate).
  assert (He : Cache.exact_hit (Cache.with_query "byzantine  SALOI") now1
                 (Cache.setCachedResult (Cache.with_query "Byzantine saloi") r t []) = None).
  { rewrite set_empty_store. vm_compute. reflexivity. }
  split; [done|]. split; [done|].
  unfold Cache.getCachedResult. rewrite He.
  unfold Cache.findSimilarQuery. rewrite set_empty_store.
  rewrite find_similar_single by lia. rewrite Hq. reflexivity.
Qed.

Lemma research_cache_variant_hits_by_similarity_witness :
  Cache.getCachedResult (Cache.with_query "byzantine  SALOI") 1000 1000
    (Cache.setCachedResult (Cache.with_query "Byzantine saloi")
       (sample_result "Byzantine saloi") 0 [])
  = (Some (Cache.mark_cached (sample_result "Byzantine saloi")),
     Cache.setCachedResult (Cache.with_query "Byzantine saloi")
       (sample_result "Byzantine saloi") 0 []).
Proof.
  refine (proj2 (proj2 (research_cache_variant_hits_by_similarity
                          (sample_result "Byzantine saloi") 0 1000 1000 _ _ _)));
    [reflexivity | lia | vm_compute; reflexivity].
Defined.

(** C4 (claim, as stated): "Byzantine holy fools" reaches the 0.85
    threshold against "Byzantine saloi holy fools tradition" and the lookup
    returns the cached entry. Refuted: the Jaccard similarity is 3/5 and the
    lookup returns nothing. *)
Lemma research_cache_similarity_claim_fails :
  Qle_bool Cache.SIMILARITY_THRESHOLD
    (Cache.calculateSimilarity "Byzantine holy fools" "Byzantine saloi holy fools tradition")
    = false
  ∧ fst (Cache.getCachedResult (Cache.with_query "Byzantine holy fools") 1 1
           (Cache.setCachedResult (Cache.with_query "Byzantine saloi holy fools tradition")
              (sample_result "Byzantine saloi holy fools tradition") 0 [])) = None.
Proof. split; vm_compute; reflexivity. Qed.

(** C4 (amended): after storing, in an empty cache, a result for
    "Byzantine saloi holy fools tradition" (whose own query is that
    string), the word-set Jaccard similarity of "Byzantine holy fools" to
    it is 3/5, below the 0.85 threshold, and a lookup for
    "Byzantine holy fools" within the TTL returns nothing. *)
Theorem research_cache_similarity_below_threshold
    (r : Cache.TavilySearchResult) (t now1 now2 : Z) :
  Cache.res_query r = "Byzantine saloi holy fools tradition" →
  (t <= now1 <= now2)%Z → (now2 < t + Cache.CACHE_TTL)%Z →
  (Cache.calculateSimilarity "Byzantine holy fools" "Byzantine saloi holy fools tradition"
     == 3 # 5)%Q
  ∧ (3 # 5 < Cache.SIMILARITY_THRESHOLD)%Q
  ∧ Cache.getCachedResult (Cache.with_query "Byzantine holy fools") now1 now2
      (Cache.setCachedResult (Cache.with_query "Byzantine saloi holy fools tradition") r t [])
    = (None,
       Cache.setCachedResult (Cache.with_query "Byzantine saloi holy fools tradition") r t []).
Proof.
  intros Hq Ht Hexp. split; [reflexivity|]. split; [reflexivity|].
  assert (He : Cache.exact_hit (Cache.with_query "Byzantine holy fools") now1
                 (Cache.setCachedResult (Cache.with_query "Byzantine saloi holy fools tradition")
                    r t []) = None).
  { rewrite set_empty_store. vm_compute. reflexivity. }
  unfold Cache.getCachedResult. rewrite He.
  unfold Cache.findSimilarQuery. rewrite set_empty_store.
  rewrite find_similar_single by lia. rewrite Hq. reflexivity.
Qed.

Lemma research_cache_similarity_below_threshold_witness :
  Cache.getCachedResult (Cache.with_query "Byzantine holy fools") 1000 1000
    (Cache.setCachedResult (Cache.with_query "Byzantine saloi holy fools tradition")
       (sample_result "Byzantine saloi holy fools tradition") 0 [])
  = (None,
     Cache.setCachedResult (Cache.with_query "Byzantine saloi holy fools tradition")
       (sample_result "Byzantine saloi holy fools tradition") 0 []).
Proof.
  refine (proj2 (proj2 (research_cache_similarity_below_threshold
                          (sample_result "Byzantine saloi holy fools tradition")
                          0 1000 1000 _ _ _)));
    [reflexivity | lia | vm_compute; reflexivity].
Defined.

(** C5: an entry whose expiry equals the lookup time. The exact tier
    treats it as expired ([expiresAt > now] fails), but the similarity
    scan only skips entries with [expiresAt < now], so the same lookup
    returns it, marked cached, and leaves it in the map. *)
Theorem research_cache_entry_returned_at_expiry :
  let m := Cache.setCachedResult (Cache.with_query "Byzantine saloi")
             (sample_result "Byzantine saloi") 0 [] in
  m = [(Cache.getCacheKey (Cache.with_query "Byzantine saloi"),
         {| Cache.data := sample_result "Byzantine saloi";
            Cache.expiresAt := Cache.CACHE_TTL |})]
  ∧ Cache.exact_hit (Cache.with_query "Byzantine saloi") Cache.CACHE_TTL m = None
  ∧ Cache.getCachedResult (Cache.with_query "Byzantine saloi") Cache.CACHE_TTL Cache.CACHE_TTL m
    = (Some (Cache.mark_cached (sample_result "Byzantine saloi")), m).
Proof. vm_compute. repeat split. Qed.

(** ** The query router *)

(** C6: [routeQuery] returns the Haiku profile exactly when the query is
    classified [simple], and the Sonnet profile for [medium] and [complex];
    "What is kenosis?" is [simple] and goes to Haiku, with or without
    selected text. *)
Theorem routeQuery_by_complexity (q : string) (sel : option string) :
  (Router.routeQuery q sel = Router.HAIKU ↔ Router.analyzeQueryComplexity q sel = Router.simple)
  ∧ (Router.analyzeQueryComplexity q sel = Router.medium → Router.routeQuery q sel = Router.SONNET)
  ∧ (Router.analyzeQueryComplexity q sel = Router.complex → Router.routeQuery q sel = Router.SONNET)
  ∧ Router.analyzeQueryComplexity "What is kenosis?" None = Router.simple
  ∧ (∀ sel' : option string, Router.routeQuery "What is kenosis?" sel' = Router.HAIKU).
Proof.
  unfold Router.routeQuery.
  split; [|split; [|split; [|split]]].
  - destruct (Router.analyzeQueryComplexity q sel); split; intros H; try done.
  - by intros ->.
  - by intros ->.
  - vm_compute. reflexivity.
  - intros sel'. reflexivity.
Qed.

Lemma routeQuery_by_complexity_witness :
  Router.analyzeQueryComplexity "Compare the saloi with the yurodivye" None = Router.complex
  ∧ Router.routeQuery "Compare the saloi with the yurodivye" None = Router.SONNET.
Proof.
  assert (H : Router.analyzeQueryComplexity "Compare the saloi with the yurodivye" None
              = Router.complex) by (vm_compute; reflexivity).
  split; [exact H|].
  exact (proj1 (proj2 (proj2 (routeQuery_by_complexity
                                "Compare the saloi with the yurodivye" None))) H).
Defined.

(** C7: for a query matching neither a simple nor a complex pattern, with
    word count [split(/\s+/).length]: more than 20 words or a selection
    longer than 100 characters gives [medium]; otherwise at most 10 words
    gives [simple] and more gives [medium]. *)
Theorem analyzeQueryComplexity_length_rules (q : string) (sel : option string) :
  Router.matches_any Router.simplePatterns q = false →
  Router.matches_any Router.complexIndicators q = false →
  ((20 < List.length (split_ws q))%nat ∨ long_selection sel →
     Router.analyzeQueryComplexity q sel = Router.medium)
  ∧ (¬ long_selection sel → (List.length (split_ws q) <= 10)%nat →
     Router.analyzeQueryComplexity q sel = Router.simple)
  ∧ (¬ long_selection sel → (10 < List.length (split_ws q) <= 20)%nat →
     Router.analyzeQueryComplexity q sel = Router.medium).
Proof.
  unfold Router.matches_any, long_selection. intros Hs Hc.
  unfold Router.analyzeQueryComplexity. rewrite Hs, Hc.
  set (n := List.length (split_ws q)).
  assert (Hsel : (match sel with Some t => (100 <? String.length t)%nat | None => false end)
                 = true ↔ ∃ t, sel = Some t ∧ (100 < String.length t)%nat).
  { destruct sel as [t|]; split.
    - intros H. exists t. split; [done|]. by apply Nat.ltb_lt.
    - intros (t' & [= <-] & H). by apply Nat.ltb_lt.
    - done.
    - by intros (t' & ? & _). }
  destruct (match sel with Some t => (100 <? String.length t)%nat | None => false end)
    eqn:E.
  - split; [|split]; intros H.
    + by rewrite orb_true_r.
    + exfalso. by apply H, Hsel.
    + exfalso. by apply H, Hsel.
  - rewrite orb_false_r. split; [|split].
    + intros [H|H]; [|by apply Hsel in H].
      by rewrite (proj2 (Nat.ltb_lt 20 n) H).
    + intros _ H. rewrite (proj2 (Nat.ltb_ge 20 n)) by lia.
      by rewrite (proj2 (Nat.leb_le n 10) H).
    + intros _ H. rewrite (proj2 (Nat.ltb_ge 20 n)) by lia.
      by rewrite (proj2 (Nat.leb_gt n 10)) by lia.
Qed.

Lemma analyzeQueryComplexity_length_rules_witness :
  List.length (split_ws query25) = 25%nat
  ∧ Router.analyzeQueryComplexity query25 None = Router.medium.
Proof.
  split; [vm_compute; reflexivity|].
  apply (proj1 (analyzeQueryComplexity_length_rules query25 None
                  ltac:(vm_compute; reflexivity) ltac:(vm_compute; reflexivity))).
  left. vm_compute. lia.
Defined.

(** ** Prompt assembly *)

(** C8 (claim, as stated): a supplied page context and a supplied selected
    text each produce a segment. Refuted for the empty string, which the
    code's truthiness tests treat like an absent input. *)
Lemma buildCachedMessages_empty_inputs_dropped :
  Prompt.buildCachedMessages "What is kenosis?" (Some "") (Some "")
  = [ {| Prompt.role := Prompt.system; Prompt.content := Prompt.CACHED_SYSTEM_PROMPT;
         Prompt.cache_control := Some Prompt.ephemeral |};
      {| Prompt.role := Prompt.user; Prompt.content := "What is kenosis?";
         Prompt.cache_control := None |} ]%list.
Proof. reflexivity. Qed.

(** C8 (amended): the segments are, in order, the system prompt (cacheable);
    for a non-empty page context, one cacheable segment holding it
    truncated to at most 2000 characters, unchanged when it fits and cut to
    1997 characters followed by "..." when longer; for a non-empty
    selected text, one segment without cache marker embedding it verbatim;
    and the query without cache marker. An absent or empty optional input
    gives no segment. *)
Theorem buildCachedMessages_layout (q : string) (pc sel : option string) :
  ∃ ctx_segs sel_segs : list Prompt.CachedMessage,
    Prompt.buildCachedMessages q pc sel =
      {| Prompt.role := Prompt.system; Prompt.content := Prompt.CACHED_SYSTEM_PROMPT;
         Prompt.cache_control := Some Prompt.ephemeral |}
      :: (ctx_segs ++ sel_segs
          ++ [ {| Prompt.role := Prompt.user; Prompt.content := q;
                  Prompt.cache_control := None |} ])%list
    ∧ match pc with
      | Some p =>
          if Prompt.nonempty p then
            ∃ t, ctx_segs =
                   [ {| Prompt.role := Prompt.user;
                        Prompt.content := "Current Page Context:" ++ nl ++ nl ++ t;
                        Prompt.cache_control := Some Prompt.ephemeral |} ]%list
                 ∧ (String.length t <= 2000)%nat
                 ∧ ((String.length p <= 2000)%nat → t = p)
                 ∧ ((2000 < String.length p)%nat → t = substring 0 1997 p ++ "...")
          else ctx_segs = []
      | None => ctx_segs = []
      end
    ∧ match sel with
      | Some x =>
          if Prompt.nonempty x then
            sel_segs =
              [ {| Prompt.role := Prompt.user;
                   Prompt.content := "Selected Text for Discussion:" ++ nl ++ dq ++ x ++ dq
                                     ++ nl ++ nl ++ "Question about this selection:";
                   Prompt.cache_control := None |} ]%list
          else sel_segs = []
      | None => sel_segs = []
      end.
Proof.
  assert (Ht : ∀ p, ∃ t, t = Prompt.truncateContext p 2000
                  ∧ (String.length t <= 2000)%nat
                  ∧ ((String.length p <= 2000)%nat → t = p)
                  ∧ ((2000 < String.length p)%nat → t = substring 0 1997 p ++ "...")).
  { intros p. destruct (PromptFacts.truncateContext_spec p 2000) as (H1 & H2 & H3).
    - apply Nat.leb_le. vm_compute. reflexivity.
    - exists (Prompt.truncateContext p 2000). split; [done|]. split; [done|].
      split; [done|]. intros H. rewrite H3 by done. reflexivity. }
  set (ctx := match pc with
              | Some p => if Prompt.nonempty p
                          then [Prompt.page_context_message (Prompt.truncateContext p 2000)]
                          else []
              | None => [] end%list).
  set (sl := match sel with
             | Some x => if Prompt.nonempty x then [Prompt.selected_text_message x] else []
             | None => [] end%list).
  exists ctx, sl. split; [|split].
  - subst ctx sl. unfold Prompt.buildCachedMessages.
    destruct pc as [p|]; [destruct (Prompt.nonempty p)|];
    destruct sel as [x|]; try destruct (Prompt.nonempty x); reflexivity.
  - subst ctx. destruct pc as [p|]; [|done]. destruct (Prompt.nonempty p); [|done].
    destruct (Ht p) as (t & -> & H1 & H2 & H3). eexists; eauto.
  - subst sl. destruct sel as [x|]; [|done]. destruct (Prompt.nonempty x); done.
Qed.

(** ** Claude cost *)

(** C9: with no cached tokens, doubling the input and output token counts
    doubles the cost, for either model. *)
Theorem calculateClaudeCost_doubling (model : Costs.ClaudeModel) (inputTokens outputTokens : Q) :
  (Costs.calculateClaudeCost (2 * inputTokens) (2 * outputTokens) 0 model
   == 2 * Costs.calculateClaudeCost inputTokens outputTokens 0 model)%Q.
Proof. destruct model; unfold Costs.calculateClaudeCost; field. Qed.

(** ** Further lemmas *)

Module StringFacts.

Lemma append_assoc (a b c : string) : ((a ++ b) ++ c)%string = (a ++ (b ++ c))%string.
Proof. induction a as [|x a IH]; simpl; [done|]. by rewrite IH. Qed.

Lemma append_nil_r (a : string) : (a ++ "")%string = a.
Proof. induction a as [|x a IH]; simpl; [done|]. by rewrite IH. Qed.

Lemma string_rev_app (a b : string) :
  string_rev (a ++ b) = (string_rev b ++ string_rev a)%string.
Proof.
  induction a as [|x a IH]; simpl.
  - by rewrite append_nil_r.
  - rewrite IH. apply append_assoc.
Qed.

Lemma string_rev_involutive (a : string) : string_rev (string_rev a) = a.
Proof.
  induction a as [|x a IH]; simpl; [done|].
  rewrite string_rev_app, IH. done.
Qed.

Lemma length_string_rev (a : string) : String.length (string_rev a) = String.length a.
Proof.
  induction a as [|x a IH]; simpl; [done|].
  rewrite LinksFacts.length_append, IH. simpl. lia.
Qed.

Lemma toLowerCase_app (a b : string) :
  toLowerCase (a ++ b) = (toLowerCase a ++ toLowerCase b)%string.
Proof. induction a as [|x a IH]; simpl; [done|]. by rewrite IH. Qed.

Lemma lower_char_space c : is_space c = true → lower_char c = c.
Proof.
  intros H. destruct c as [[] [] [] [] [] [] [] []];
    (reflexivity || (vm_compute in H; discriminate H)).
Qed.

Lemma lower_char_not_space c : is_space (lower_char c) = is_space c.
Proof. destruct c as [[] [] [] [] [] [] [] []]; reflexivity. Qed.

Lemma trim_start_app (a b : string) :
  trim_start (a ++ b) =
    if Links.all_chars is_space a then trim_start b else (trim_start a ++ b)%string.
Proof.
  induction a as [|x a IH]; simpl; [done|].
  destruct (is_space x); simpl; [apply IH|done].
Qed.

Lemma trim_start_all_space (a : string) :
  Links.all_chars is_space a = true → trim_start a = EmptyString.
Proof.
  induction a as [|x a IH]; simpl; [done|].
  intros H. apply andb_prop in H as [-> H]. by apply IH.
Qed.

Lemma trim_start_not_all_space (a : string) :
  Links.all_chars is_space a = false → Links.all_chars is_space (trim_start a) = false.
Proof.
  induction a as [|x a IH]; simpl; [done|].
  destruct (is_space x) eqn:E; simpl; [apply IH|by rewrite E].
Qed.

Lemma all_space_rev (a : string) :
  Links.all_chars is_space (string_rev a) = Links.all_chars is_space a.
Proof.
  induction a as [|x a IH]; simpl; [done|].
  assert (Happ : ∀ u v, Links.all_chars is_space (u ++ v)
                        = Links.all_chars is_space u && Links.all_chars is_space v).
  { intros u v. induction u as [|y u IHu]; simpl; [done|]. by rewrite IHu, andb_assoc. }
  rewrite Happ, IH. simpl. by rewrite andb_true_r, andb_comm.
Qed.

(** Whitespace after the text is removed by [trim]. *)
Lemma trim_app_space_r (a : string) c :
  is_space c = true → trim (a ++ str1 c) = trim a.
Proof.
  intros Hc. unfold trim. rewrite trim_start_app.
  destruct (Links.all_chars is_space a) eqn:E.
  - rewrite (trim_start_all_space a E). simpl. rewrite Hc. done.
  - rewrite string_rev_app. simpl. rewrite Hc. done.
Qed.

Lemma trim_space_l (a : string) c : is_space c = true → trim (String c a) = trim a.
Proof. intros Hc. unfold trim. simpl. by rewrite Hc. Qed.

Lemma toLowerCase_idem s : toLowerCase (toLowerCase s) = toLowerCase s.
Proof.
  induction s as [|c s IH]; simpl; [done|].
  f_equal; [|done]. destruct c as [[] [] [] [] [] [] [] []]; reflexivity.
Qed.

End StringFacts.

Module CacheFacts.
Import Cache.

Lemma map_get_app k (m1 m2 : store) :
  map_get k (m1 ++ m2)%list = match map_get k m1 with Some e => Some e | None => map_get k m2 end.
Proof.
  induction m1 as [|[k' e'] m1 IH]; simpl; [done|]. case_decide; [done|]. apply IH.
Qed.

Lemma map_get_replace k k' e (m : store) :
  map_get k' (map (fun '(k0, e0) => if decide (k = k0) then (k0, e) else (k0, e0)) m) =
    if decide (k' = k) then (match map_get k m with Some _ => Some e | None => None end)
    else map_get k' m.
Proof.
  induction m as [|[k0 e0] m IH]; simpl.
  - by case_decide.
  - destruct (decide (k = k0)) as [<-|Hne]; simpl;
      repeat case_decide; subst; try done; congruence.
Qed.

Lemma map_get_set_eq k e (m : store) : map_get k (map_set k e m) = Some e.
Proof.
  unfold map_set, map_has. destruct (map_get k m) eqn:E.
  - rewrite map_get_replace, decide_True, E by done. done.
  - rewrite map_get_app, E. simpl. by rewrite decide_True.
Qed.

Lemma map_get_set_ne k k' e (m : store) :
  k' ≠ k → map_get k' (map_set k e m) = map_get k' m.
Proof.
  intros Hne. unfold map_set, map_has. destruct (map_get k m) eqn:E.
  - rewrite map_get_replace, decide_False by done. done.
  - rewrite map_get_app. destruct (map_get k' m); [done|]. simpl.
    by rewrite decide_False.
Qed.

End CacheFacts.

Module KeyFacts.
Import Cache.

Lemma ascii_compare_trans a b c :
  Ascii.compare a b = Lt → Ascii.compare b c = Lt → Ascii.compare a c = Lt.
Proof. unfold Ascii.compare. rewrite !N.compare_lt_iff. lia. Qed.

Lemma ascii_compare_eq_lt a b c :
  Ascii.compare a b = Eq → Ascii.compare b c = Lt → Ascii.compare a c = Lt.
Proof. intros H. apply Ascii.compare_eq_iff in H. by subst. Qed.

Lemma ascii_compare_lt_eq a b c :
  Ascii.compare a b = Lt → Ascii.compare b c = Eq → Ascii.compare a c = Lt.
Proof. intros H H'. apply Ascii.compare_eq_iff in H'. by subst. Qed.

Lemma ascii_compare_refl a : Ascii.compare a a = Eq.
Proof. unfold Ascii.compare. apply N.compare_refl. Qed.

Lemma string_compare_trans s1 s2 s3 :
  String.compare s1 s2 = Lt → String.compare s2 s3 = Lt → String.compare s1 s3 = Lt.
Proof.
  revert s2 s3. induction s1 as [|a s1 IH]; intros [|b s2] [|c s3]; simpl; try done.
  destruct (Ascii.compare a b) eqn:Eab; destruct (Ascii.compare b c) eqn:Ebc; try done.
  - apply Ascii.compare_eq_iff in Eab, Ebc. subst. rewrite ascii_compare_refl. apply IH.
  - apply Ascii.compare_eq_iff in Eab. subst. by rewrite Ebc.
  - apply Ascii.compare_eq_iff in Ebc. subst. by rewrite Eab.
  - by rewrite (ascii_compare_trans a b c).
Qed.

Lemma ltb_trans x y z : String.ltb x y = true → String.ltb y z = true → String.ltb x z = true.
Proof.
  unfold String.ltb. destruct (String.compare x y) eqn:E1; try done.
  destruct (String.compare y z) eqn:E2; try done.
  by rewrite (string_compare_trans x y z).
Qed.

Lemma ltb_asym x y : String.ltb x y = true → String.ltb y x = false.
Proof.
  unfold String.ltb. rewrite (String.compare_antisym y x).
  by destruct (String.compare x y).
Qed.

Lemma ltb_trichotomy x y : String.ltb x y = false → String.ltb y x = false → x = y.
Proof.
  unfold String.ltb. rewrite (String.compare_antisym y x).
  destruct (String.compare x y) eqn:E; simpl; try done.
  intros _ _. by apply String.compare_eq_iff.
Qed.

Lemma insert_sorted_comm x y (l : list string) :
  insert_sorted x (insert_sorted y l) = insert_sorted y (insert_sorted x l).
Proof.
  destruct (decide (x = y)) as [<-|Hne]; [done|].
  induction l as [|z l IH]; simpl;
    repeat (match goal with |- context [String.ltb ?a ?b] =>
              let E := fresh "E" in destruct (String.ltb a b) eqn:E; simpl end);
    try done; try (by rewrite IH);
    first
      [ match goal with H1 : String.ltb ?a ?b = true, H2 : String.ltb ?b ?a = true |- _ =>
          rewrite (ltb_asym a b H1) in H2; discriminate end
      | match goal with H1 : String.ltb ?a ?b = true, H2 : String.ltb ?b ?c = true,
                          H3 : String.ltb ?a ?c = false |- _ =>
          rewrite (ltb_trans a b c H1 H2) in H3; discriminate end
      | match goal with H1 : String.ltb x y = false, H2 : String.ltb y x = false |- _ =>
          destruct Hne; by apply ltb_trichotomy end ].
Qed.

Lemma fold_insert_perm (l l' : list string) acc :
  Permutation l l' →
  fold_left (fun acc x => insert_sorted x acc) l acc
  = fold_left (fun acc x => insert_sorted x acc) l' acc.
Proof.
  intros H. revert acc. induction H as [|x l l' H IH|x y l|l l' l'' H1 IH1 H2 IH2];
    intros acc; simpl.
  - done.
  - apply IH.
  - by rewrite insert_sorted_comm.
  - by rewrite IH1, IH2.
Qed.

Lemma sort_strings_perm (l l' : list string) :
  Permutation l l' → sort_strings l = sort_strings l'.
Proof. apply fold_insert_perm. Qed.

End KeyFacts.

Module CleanupFacts.
Import Cache.

Ltac destruct_qle :=
  match goal with
  | |- context [Qle_bool ?a ?b] => destruct (Qle_bool a b) eqn:?
  | H : context [Qle_bool ?a ?b] |- _ => destruct (Qle_bool a b) eqn:?
  end.

Lemma filter_ext' {A} (f g : A → bool) (l : list A) :
  (∀ x, f x = g x) → List.filter f l = List.filter g l.
Proof. intros H. induction l as [|x l IH]; simpl; [done|]. by rewrite H, IH. Qed.

Lemma filter_filter' {A} (f g : A → bool) (l : list A) :
  List.filter f (List.filter g l) = List.filter (fun x => g x && f x) l.
Proof.
  induction l as [|x l IH]; simpl; [done|].
  destruct (g x); simpl; [destruct (f x); simpl|]; by rewrite IH.
Qed.

Lemma filter_true' {A} (l : list A) : List.filter (fun _ => true) l = l.
Proof. induction l as [|x l IH]; simpl; [done|]. by rewrite IH. Qed.

(** The loop of [cleanupExpiredCache] removes the keys of the expired
    entries it visits. *)
Lemma cleanup_go_filter now (es m : store) :
  cleanup_go now es m =
    List.filter (fun ke => negb (existsb (fun '(k', e') =>
                    bool_decide (ke.1 = k') && (expiresAt e' <? now)%Z) es)) m.
Proof.
  revert m. induction es as [|[k e] es IH]; intros m; simpl.
  - induction m as [|x m IHm]; simpl; [done|]. by rewrite <- IHm.
  - destruct (expiresAt e <? now)%Z eqn:E.
    + rewrite IH. unfold map_delete. rewrite filter_filter'.
      apply filter_ext'. intros [k0 e0]; simpl.
      destruct (decide (k = k0)) as [<-|Hne].
      * by rewrite bool_decide_true.
      * rewrite bool_decide_false by congruence. done.
    + rewrite IH. apply filter_ext'. intros [k0 e0]; simpl.
      by rewrite andb_false_r.
Qed.

Lemma map_get_filter_key (P : CacheKey → bool) k (m : store) :
  map_get k (List.filter (fun ke => P ke.1) m) = if P k then map_get k m else None.
Proof.
  induction m as [|[k' e'] m IH]; cbn [List.filter map_get fst].
  - by destruct (P k).
  - destruct (P k') eqn:E; cbn [map_get]; destruct (decide (k = k')); subst;
      rewrite ?E; try done; rewrite IH; by rewrite ?E.
Qed.

Lemma map_get_In k e (m : store) : map_get k m = Some e → In (k, e) m.
Proof.
  induction m as [|[k' e'] m IH]; simpl; [done|].
  case_decide as Hk; [intros [= <-]; subst; by left|intros H; right; by apply IH].
Qed.

Lemma NoDup_keys_In k e e' (m : store) :
  List.NoDup (map fst m) → In (k, e) m → In (k, e') m → e = e'.
Proof.
  induction m as [|[k0 e0] m IH]; simpl; [done|].
  intros Hnd. apply NoDup_cons_iff in Hnd as [Hnot Hnd].
  intros [H1|H1] [H2|H2].
  - congruence.
  - injection H1 as -> ->. exfalso. apply Hnot. by apply (in_map fst) in H2.
  - injection H2 as -> ->. exfalso. apply Hnot. by apply (in_map fst) in H1.
  - by apply IH.
Qed.

Lemma expired_key_own now k e (m : store) :
  List.NoDup (map fst m) → In (k, e) m →
  existsb (fun '(k', e') => bool_decide (k = k') && (expiresAt e' <? now)%Z) m
  = (expiresAt e <? now)%Z.
Proof.
  intros Hnd Hin. destruct (existsb _ m) eqn:E.
  - apply existsb_exists in E as ([k' e'] & Hin' & Hx).
    apply andb_prop in Hx as [Hk He]. apply bool_decide_eq_true in Hk. subst k'.
    assert (e = e') as -> by (by apply (NoDup_keys_In k e e' m)). by rewrite He.
  - destruct (expiresAt e <? now)%Z eqn:He; [|done].
    rewrite <- E. apply existsb_exists. exists (k, e). split; [done|].
    rewrite bool_decide_true; [done|done].
Qed.

Lemma cleanup_lookup now k (m : store) :
  List.NoDup (map fst m) →
  map_get k (cleanupExpiredCache now m) =
    match map_get k m with
    | Some e => if (expiresAt e <? now)%Z then None else Some e
    | None => None
    end.
Proof.
  intros Hnd. unfold cleanupExpiredCache. rewrite cleanup_go_filter.
  pose proof (map_get_filter_key (fun k0 => negb (existsb (fun '(k', e') =>
                    bool_decide (k0 = k') && (expiresAt e' <? now)%Z) m)) k m) as HP.
  cbv beta in HP. rewrite HP. clear HP.
  destruct (map_get k m) as [e|] eqn:E; [|by destruct (negb _)].
  rewrite (expired_key_own now k e m Hnd) by by apply map_get_In.
  by destruct (expiresAt e <? now)%Z.
Qed.

Lemma find_similar_fst q now (es m1 m2 : store) :
  fst (find_similar_go q now es m1) = fst (find_similar_go q now es m2).
Proof.
  revert m1 m2. induction es as [|[k e] es IH]; intros m1 m2; cbn [find_similar_go fst]; [done|].
  destruct (expiresAt e <? now)%Z; [apply IH|].
  destruct_qle; [done|apply IH].
Qed.

Lemma find_similar_filter q now (P : CacheKey * CacheEntry → bool) (es m1 m2 : store) :
  (∀ x, In x es → P x = false → (expiresAt x.2 < now)%Z) →
  fst (find_similar_go q now (List.filter P es) m1) = fst (find_similar_go q now es m2).
Proof.
  revert m1 m2. induction es as [|[k e] es IH]; intros m1 m2 H; cbn [find_similar_go fst List.filter]; [done|].
  destruct (P (k, e)) eqn:EP; cbn [find_similar_go fst].
  - destruct (expiresAt e <? now)%Z; [apply IH; intros x Hx; apply H; by right|].
    destruct_qle; [done|apply IH; intros x Hx; apply H; by right].
  - pose proof (H (k, e) (or_introl eq_refl) EP) as He. simpl in He.
    rewrite (proj2 (Z.ltb_lt _ _) He).
    apply IH; intros x Hx; apply H; by right.
Qed.

Lemma find_similar_result q now (es m m' : store) e :
  find_similar_go q now es m = (Some e, m') →
  (∃ k, In (k, e) es) ∧ (now <= expiresAt e)%Z
  ∧ Qle_bool SIMILARITY_THRESHOLD (calculateSimilarity q (res_query (data e))) = true.
Proof.
  revert m. induction es as [|[k e0] es IH]; intros m H; cbn [find_similar_go] in H; [done|].
  destruct (expiresAt e0 <? now)%Z eqn:E1.
  - apply IH in H as ([k' Hk] & H2 & H3). split; [exists k'; by right|done].
  - destruct (Qle_bool SIMILARITY_THRESHOLD (calculateSimilarity q (res_query (data e0)))) eqn:E2.
    + injection H as <- _. apply Z.ltb_ge in E1. split; [exists k; by left|done].
    + apply IH in H as ([k' Hk] & H2 & H3). split; [exists k'; by right|done].
Qed.

Lemma find_similar_sub q now (es m m' : store) o x :
  find_similar_go q now es m = (o, m') → In x m' → In x m.
Proof.
  revert m. induction es as [|[k e0] es IH]; intros m H Hx; cbn [find_similar_go] in H.
  - by injection H as _ <-.
  - destruct (expiresAt e0 <? now)%Z.
    + apply IH in H; [|done]. unfold map_delete in H. by apply filter_In in H as [? _].
    + destruct_qle; [by injection H as _ <-|by apply (IH m)].
Qed.

Lemma find_similar_keeps q now (es m m' : store) o k e :
  find_similar_go q now es m = (o, m') → In (k, e) m →
  (∀ e', In (k, e') es → (now <= expiresAt e')%Z) → In (k, e) m'.
Proof.
  revert m. induction es as [|[k0 e0] es IH]; intros m H Hin Hlive; cbn [find_similar_go] in H.
  - by injection H as _ <-.
  - destruct (expiresAt e0 <? now)%Z eqn:E.
    + apply (IH (map_delete k0 m)); [done| |intros e' He'; apply Hlive; by right].
      unfold map_delete. apply filter_In. split; [done|].
      destruct (decide (k0 = k)) as [<-|]; [|done].
      exfalso. apply Z.ltb_lt in E. specialize (Hlive e0 (or_introl eq_refl)). lia.
    + destruct_qle; [by injection H as _ <-|].
      apply (IH m); [done|done|]. intros e' He'; apply Hlive; by right.
Qed.

End CleanupFacts.

Module SimilarityFacts.
Import Cache.

Lemma existsb_eqb_In (x : string) (l : list string) :
  existsb (String.eqb x) l = true ↔ In x l.
Proof.
  rewrite existsb_exists. split.
  - intros (y & Hy & E). apply String.eqb_eq in E. by subst.
  - intros H. exists x. split; [done|]. apply String.eqb_refl.
Qed.

Lemma dedup_go_In_iff seen (xs : list string) x :
  In x (dedup_go seen xs) ↔ In x xs ∧ ¬ In x seen.
Proof.
  revert seen. induction xs as [|y xs IH]; intros seen; simpl; [tauto|].
  destruct (existsb (String.eqb y) seen) eqn:E.
  - apply existsb_eqb_In in E. rewrite IH.
    split; [tauto|]. intros [[<-|H] Hn]; [done|tauto].
  - assert (Hy : ¬ In y seen) by (intros H; apply existsb_eqb_In in H; congruence).
    simpl. rewrite IH. simpl.
    destruct (string_dec y x) as [<-|Hne]; [tauto|].
    split; [intros [H|H]; [congruence|tauto]|].
    intros [[H|H] Hn]; [congruence|]. right. split; [done|]. intros [H'|H']; [congruence|done].
Qed.

Lemma dedup_In_iff (xs : list string) x : In x (dedup xs) ↔ In x xs.
Proof. unfold dedup. rewrite dedup_go_In_iff. simpl. tauto. Qed.

Lemma dedup_go_NoDup seen (xs : list string) : List.NoDup (dedup_go seen xs).
Proof.
  revert seen. induction xs as [|y xs IH]; intros seen; simpl; [constructor|].
  destruct (existsb (String.eqb y) seen); [apply IH|].
  constructor; [|apply IH]. rewrite dedup_go_In_iff. simpl. tauto.
Qed.

Lemma dedup_NoDup (xs : list string) : List.NoDup (dedup xs).
Proof. apply dedup_go_NoDup. Qed.

Lemma NoDup_same_length (a b : list string) :
  List.NoDup a → List.NoDup b → (∀ x, In x a ↔ In x b) → List.length a = List.length b.
Proof.
  intros Ha Hb H. apply Nat.le_antisymm; apply NoDup_incl_length; try done; intros x; apply H.
Qed.

Lemma length_filter_le {A} (f : A → bool) (l : list A) :
  (List.length (List.filter f l) <= List.length l)%nat.
Proof. induction l as [|x l IH]; simpl; [lia|]. destruct (f x); simpl; lia. Qed.

Lemma split_ws_go_nonempty s cur inws : (1 <= List.length (split_ws_go s cur inws))%nat.
Proof.
  revert cur inws. induction s as [|c s IH]; intros cur inws; simpl; [lia|].
  destruct (is_space c); [destruct inws; simpl; [apply IH|specialize (IH "" true); lia]|apply IH].
Qed.

Lemma mem_In w l : mem w l = true ↔ In w l.
Proof. apply existsb_eqb_In. Qed.

Lemma filter_all_true {A} (f : A → bool) (l : list A) :
  (∀ x, In x l → f x = true) → List.filter f l = l.
Proof.
  induction l as [|x l IH]; intros H; simpl; [done|].
  rewrite (H x (or_introl eq_refl)), IH; [done|]. intros y Hy. apply H. by right.
Qed.

End SimilarityFacts.


Module RouterFacts.
Import Router.

Lemma rmatch_lit_app w prev s k :
  rmatch (lit w) prev (w ++ s) k = k (last_opt prev w) s.
Proof.
  revert prev. induction w as [|c w IH]; intros prev; simpl; [done|].
  rewrite Ascii.eqb_refl. simpl. apply IH.
Qed.

Lemma test_from_start r prev s :
  rmatch r prev s (fun _ _ => true) = true → test_from r prev s = true.
Proof. intros H. destruct s; simpl; by rewrite H. Qed.

Lemma test_from_app r prev a s :
  test_from r (last_opt prev a) s = true → test_from r prev (a ++ s) = true.
Proof.
  revert prev. induction a as [|c a IH]; intros prev H; simpl in *; [done|].
  apply orb_true_iff. right. by apply IH.
Qed.

Lemma existsb_In_true {A} (f : A → bool) (l : list A) x :
  In x l → f x = true → existsb f l = true.
Proof. intros Hin Hx. apply existsb_exists. by exists x. Qed.

Lemma estimateTokens_bounds text :
  (Z.of_nat (String.length text) <= 4 * estimateTokens text
   < Z.of_nat (String.length text) + 4)%Z.
Proof.
  unfold estimateTokens.
  set (n := Z.of_nat (String.length text)).
  pose proof (Qle_ceiling (inject_Z n / 4)) as H1.
  pose proof (Qceiling_lt (inject_Z n / 4)) as H2.
  set (t := Qceiling (inject_Z n / 4)) in *.
  assert (E : (inject_Z n / 4 == inject_Z n * (1#4))%Q) by reflexivity.
  rewrite E in H1, H2. unfold Qle, Qlt in *. simpl in *. lia.
Qed.

Ltac bsolve H :=
  cbv -[Router.word_after]; try rewrite H; cbv -[Router.word_after];
  first [ reflexivity
        | apply orb_true_iff; first [left; bsolve H | right; bsolve H] ].

Ltac pick H :=
  first [ apply orb_true_iff;
          first [ left; apply RouterFacts.test_from_start; bsolve H | right; pick H ]
        | apply RouterFacts.test_from_start; bsolve H ].

Ltac pick_in H :=
  first [ apply orb_true_iff;
          first [ left; apply RouterFacts.test_from_app, RouterFacts.test_from_start; bsolve H
                | right; pick_in H ]
        | apply RouterFacts.test_from_app, RouterFacts.test_from_start; bsolve H ].

End RouterFacts.

Module PageContextFacts.
Import Prompt.

Lemma length_trim_start s : (String.length (trim_start s) <= String.length s)%nat.
Proof.
  induction s as [|c s IH]; simpl; [lia|]. destruct (is_space c); simpl; lia.
Qed.

Lemma length_trim s : (String.length (trim s) <= String.length s)%nat.
Proof.
  unfold trim. rewrite StringFacts.length_string_rev.
  etransitivity; [apply length_trim_start|].
  rewrite StringFacts.length_string_rev. apply length_trim_start.
Qed.

Lemma accumulate_lines_inv maxChars ctx lines :
  acc_inv maxChars ctx → acc_inv maxChars (accumulate_lines maxChars ctx lines).
Proof.
  revert ctx. induction lines as [|line rest IH]; intros ctx H; simpl; [done|].
  destruct (maxChars <? String.length ctx + String.length line)%nat eqn:E; [done|].
  apply Nat.ltb_ge in E. apply IH. right.
  destruct H as [->|(y & -> & Hy)].
  - exists line. split; [done|]. simpl in E. lia.
  - exists (y ++ nl ++ line)%string. split.
    + by rewrite !StringFacts.append_assoc.
    + rewrite !LinksFacts.length_append in E |- *. simpl in *. lia.
Qed.

Lemma extractPageContext_length md maxChars :
  (String.length (extractPageContext md maxChars) <= maxChars)%nat.
Proof.
  unfold extractPageContext.
  destruct (accumulate_lines_inv maxChars "" (split_lines (strip_frontmatter md))
              (or_introl eq_refl)) as [->|(y & -> & Hy)].
  - simpl. lia.
  - unfold nl. rewrite StringFacts.trim_app_space_r by reflexivity.
    etransitivity; [apply length_trim|done].
Qed.

End PageContextFacts.

Module TrackerFacts.
Import Tracker.
Local Open Scope Q_scope.

Lemma fold_sum (xs : list APICallLog) acc :
  fold_left (fun sum log => sum + estimatedCost log) xs acc == acc + sum_cost xs.
Proof.
  unfold sum_cost. revert acc. induction xs as [|x xs IH]; intros acc; simpl; [ring|].
  rewrite (IH (acc + estimatedCost x)), (IH (0 + estimatedCost x)). ring.
Qed.

Lemma sum_cost_nil : sum_cost [] == 0.
Proof. reflexivity. Qed.

Lemma sum_cost_cons x xs : sum_cost (x :: xs) == estimatedCost x + sum_cost xs.
Proof. unfold sum_cost at 1. simpl. rewrite fold_sum. ring. Qed.

Lemma sum_cost_app xs ys : sum_cost (xs ++ ys) == sum_cost xs + sum_cost ys.
Proof.
  induction xs as [|x xs IH]; simpl; [rewrite sum_cost_nil; ring|].
  rewrite !sum_cost_cons, IH. ring.
Qed.

Lemma sum_cost_filter_split (f : APICallLog → bool) xs :
  sum_cost xs == sum_cost (List.filter f xs) + sum_cost (List.filter (fun x => negb (f x)) xs).
Proof.
  induction xs as [|x xs IH]; simpl; [reflexivity|].
  destruct (f x); simpl; rewrite !sum_cost_cons, IH; ring.
Qed.

Lemma logged_cases x :
  logged_call x →
  (has_model "haiku" x = true ∧ has_model "sonnet" x = false
   ∧ service_eqb (service x) claude = true ∧ service_eqb (service x) tavily = false)
  ∨ (has_model "haiku" x = false ∧ has_model "sonnet" x = true
   ∧ service_eqb (service x) claude = true ∧ service_eqb (service x) tavily = false)
  ∨ (has_model "haiku" x = false ∧ has_model "sonnet" x = false
   ∧ service_eqb (service x) claude = false ∧ service_eqb (service x) tavily = true
   ∧ estimatedCost x = calculateTavilyCost (cacheHit x)).
Proof.
  intros [(p & t & ->)|(p & t & ->)].
  - destruct (cp_model p) eqn:E; unfold has_model, claude_log; simpl; rewrite E; simpl;
      [left|right; left]; done.
  - right; right. done.
Qed.

Lemma filter_filter_implied {A} (f g : A → bool) (l : list A) :
  (∀ x, f x = true → g x = true) → List.filter f (List.filter g l) = List.filter f l.
Proof.
  intros H. induction l as [|x l IH]; simpl; [done|].
  destruct (g x) eqn:Eg; simpl.
  - by rewrite IH.
  - destruct (f x) eqn:Ef; [by rewrite (H x Ef) in Eg|done].
Qed.

Lemma period_logs_app (l1 l2 : logs) s e :
  period_logs (l1 ++ l2)%list s e = (period_logs l1 s e ++ period_logs l2 s e)%list.
Proof. apply List.filter_app. Qed.

End TrackerFacts.

Module TrackerFacts2.

Lemma daily_cost_append (log : Tracker.APICallLog) (now : Z) (costLogs : Tracker.logs) :
  ((now - Tracker.oneDay <= Tracker.timestamp log <= now)%Z →
   Tracker.calculateDailyCost (costLogs ++ [log])%list now
   == Tracker.calculateDailyCost costLogs now + Tracker.estimatedCost log)%Q
  ∧ (¬ (now - Tracker.oneDay <= Tracker.timestamp log <= now)%Z →
     Tracker.calculateDailyCost (costLogs ++ [log])%list now
     = Tracker.calculateDailyCost costLogs now).
Proof.
  unfold Tracker.calculateDailyCost, Tracker.calculateCostForPeriod. simpl.
  rewrite TrackerFacts.period_logs_app. unfold Tracker.period_logs at 2. simpl.
  unfold Tracker.in_period.
  split.
  - intros [H1 H2]. rewrite (proj2 (Z.leb_le _ _) H1), (proj2 (Z.leb_le _ _) H2). simpl.
    rewrite TrackerFacts.sum_cost_app, TrackerFacts.sum_cost_cons. simpl. rewrite TrackerFacts.sum_cost_nil. ring.
  - intros Hn.
    destruct ((now - Tracker.oneDay <=? Tracker.timestamp log)%Z) eqn:E1;
      destruct ((Tracker.timestamp log <=? now)%Z) eqn:E2; simpl;
      try (rewrite app_nil_r; reflexivity).
    apply Z.leb_le in E1, E2. tauto.
Qed.

Lemma sample_logs_logged : Forall Tracker.logged_call sample_logs.
Proof.
  constructor; [left; eexists _, _; reflexivity|].
  constructor; [right; eexists _, _; reflexivity|constructor].
Qed.

End TrackerFacts2.

Module GraphFacts2.
Import Graph.

Lemma add_backlink_sound bl f t x y :
  has_edge (add_backlink bl f t) x y → has_edge bl x y ∨ (x = f ∧ y = t).
Proof.
  intros (b & Hb & Hx). rewrite GraphFacts.add_backlink_lookup in Hb.
  case_decide as Ht.
  - subst y. injection Hb as <-. apply elem_of_union in Hx as [Hx|Hx].
    + right. split; [set_solver|done].
    + left. destruct (bl !! t) as [b0|] eqn:E; simpl in Hx; [|set_solver].
      exists b0. done.
  - left. by exists b.
Qed.

Lemma inner_sound bl f (ts : list string) x y :
  has_edge (foldl (fun b t => add_backlink b f t) bl ts) x y →
  has_edge bl x y ∨ (x = f ∧ y ∈ ts).
Proof.
  revert bl. induction ts as [|t ts IH]; intros bl H; simpl in H; [by left|].
  destruct (IH _ H) as [H1|[-> H1]].
  - destruct (add_backlink_sound _ _ _ _ _ H1) as [H2|[-> ->]]; [by left|].
    right. split; [done|]. apply elem_of_cons. by left.
  - right. split; [done|]. apply elem_of_cons. by right.
Qed.

Lemma outer_sound (l : list (string * gset string)) bl x y :
  has_edge (foldl (fun b '(fromSlug, toSlugs) => add_backlinks_from b fromSlug toSlugs) bl l) x y →
  has_edge bl x y ∨ ∃ s, (x, s) ∈ l ∧ y ∈ s.
Proof.
  revert bl. induction l as [|[f ts] l IH]; intros bl H; simpl in H; [by left|].
  destruct (IH _ H) as [H1|(s & Hs & Hy)].
  - unfold add_backlinks_from in H1.
    destruct (inner_sound _ _ _ _ _ H1) as [H2|[-> H2]]; [by left|].
    right. exists ts. split; [apply elem_of_cons; by left|]. by apply elem_of_elements.
  - right. exists s. split; [apply elem_of_cons; by right|done].
Qed.

Lemma build_backlinks_sound fwd x y :
  has_edge (build_backlinks fwd) x y → ∃ s, fwd !! x = Some s ∧ y ∈ s.
Proof.
  intros H. unfold build_backlinks in H.
  destruct (outer_sound _ _ _ _ H) as [(b & Hb & _)|(s & Hs & Hy)].
  - by rewrite lookup_empty in Hb.
  - exists s. split; [|done]. by apply elem_of_map_to_list.
Qed.

Lemma load_file_inv st file : load_inv st → load_inv (load_file st file).
Proof.
  destruct st as [pgs fwd]. unfold load_file. intros H.
  destruct (negb _); [done|]. intros k. simpl.
  rewrite !lookup_insert. case_decide as Hk.
  - split; [split; discriminate|]. intros page [= <-]. eexists; split; [done|].
    intros x Hx. simpl in Hx. apply elem_of_list_to_set, elem_of_app. right.
    by apply list_elem_of_In.
  - apply H.
Qed.

Lemma load_files_inv files st : load_inv st → load_inv (foldl load_file st files).
Proof.
  revert st. induction files as [|f files IH]; intros st H; simpl; [done|].
  by apply IH, load_file_inv.
Qed.

Lemma buildLinkGraph_inv files :
  ∀ k, (pages (buildLinkGraph files) !! k = None ↔ forwardLinks (buildLinkGraph files) !! k = None)
       ∧ ∀ page, pages (buildLinkGraph files) !! k = Some page →
           ∃ f, forwardLinks (buildLinkGraph files) !! k = Some f
                ∧ ∀ x, In x (list_or_empty (related page) ++ list_or_empty (seeAlso page))%list →
                       x ∈ f.
Proof.
  unfold buildLinkGraph.
  pose proof (load_files_inv files (∅, ∅)) as H.
  destruct (foldl load_file (∅, ∅) files) as [pgs fwd]. simpl in *.
  apply H. intros k. simpl. rewrite !lookup_empty. split; [done|]. discriminate.
Qed.

Lemma foldl_load_md st files :
  foldl load_file st files
  = foldl load_file st (List.filter (fun f => ends_with ".md" (file_name f)) files).
Proof.
  revert st. induction files as [|f files IH]; intros st; simpl; [done|].
  destruct (ends_with ".md" (file_name f)) eqn:E; simpl; [apply IH|].
  rewrite <- IH. f_equal. destruct st. unfold load_file. by rewrite E.
Qed.

End GraphFacts2.

(** * Further properties *)

(** X1: After setCachedResult stores a result at time t, getCachedResult with the same parameters at a time before t + CACHE_TTL returns that result marked cached and leaves the cache as it is. Storing under one key does not change the exact-match lookup of parameters with a different key. *)
Theorem setCachedResult_then_getCachedResult
    (p p' : Cache.TavilySearchParams) (r : Cache.TavilySearchResult) (t now1 now2 : Z)
    (m : Cache.store) :
  (now1 < t + Cache.CACHE_TTL)%Z →
  Cache.getCachedResult p now1 now2 (Cache.setCachedResult p r t m)
    = (Some (Cache.mark_cached r), Cache.setCachedResult p r t m)
  ∧ (Cache.getCacheKey p' ≠ Cache.getCacheKey p →
     ∀ now, Cache.exact_hit p' now (Cache.setCachedResult p r t m) = Cache.exact_hit p' now m).
Proof.
  intros Ht. split.
  - unfold Cache.getCachedResult, Cache.exact_hit, Cache.setCachedResult.
    rewrite CacheFacts.map_get_set_eq. simpl.
    by rewrite (proj2 (Z.ltb_lt _ _) Ht).
  - intros Hne now. unfold Cache.exact_hit, Cache.setCachedResult.
    by rewrite CacheFacts.map_get_set_ne.
Qed.

Lemma setCachedResult_then_getCachedResult_witness :
  Cache.getCachedResult (Cache.with_query "Byzantine saloi") 1000 1000
      (Cache.setCachedResult (Cache.with_query "Byzantine saloi")
         (sample_result "Byzantine saloi") 0 sample_store)
  = (Some (Cache.mark_cached (sample_result "Byzantine saloi")),
     Cache.setCachedResult (Cache.with_query "Byzantine saloi")
         (sample_result "Byzantine saloi") 0 sample_store).
Proof.
  exact (proj1 (setCachedResult_then_getCachedResult _ (Cache.with_query "Byzantine saloi")
                  _ 0 1000 1000 sample_store ltac:(vm_compute; reflexivity))).
Defined.

(** X2: getCacheKey gives the same key when the query is lower-cased or gains one leading or trailing whitespace character, when maxResults is omitted or 0 instead of 5, when searchDepth is omitted instead of basic, and when includeDomains or excludeDomains is omitted instead of empty. *)
Theorem getCacheKey_normalizes_query_and_defaults
    (q : string) (c : ascii) (mr : option Z) (sd : option Cache.SearchDepth)
    (inc exc : option (list string)) :
  is_space c = true →
  Cache.getCacheKey (Cache.Build_TavilySearchParams (toLowerCase q) mr sd inc exc)
    = Cache.getCacheKey (Cache.Build_TavilySearchParams q mr sd inc exc)
  ∧ Cache.getCacheKey (Cache.Build_TavilySearchParams (String c q) mr sd inc exc)
    = Cache.getCacheKey (Cache.Build_TavilySearchParams q mr sd inc exc)
  ∧ Cache.getCacheKey (Cache.Build_TavilySearchParams (q ++ str1 c) mr sd inc exc)
    = Cache.getCacheKey (Cache.Build_TavilySearchParams q mr sd inc exc)
  ∧ Cache.getCacheKey (Cache.Build_TavilySearchParams q None sd inc exc)
    = Cache.getCacheKey (Cache.Build_TavilySearchParams q (Some 5%Z) sd inc exc)
  ∧ Cache.getCacheKey (Cache.Build_TavilySearchParams q (Some 0%Z) sd inc exc)
    = Cache.getCacheKey (Cache.Build_TavilySearchParams q (Some 5%Z) sd inc exc)
  ∧ Cache.getCacheKey (Cache.Build_TavilySearchParams q mr None inc exc)
    = Cache.getCacheKey (Cache.Build_TavilySearchParams q mr (Some Cache.basic) inc exc)
  ∧ Cache.getCacheKey (Cache.Build_TavilySearchParams q mr sd None exc)
    = Cache.getCacheKey (Cache.Build_TavilySearchParams q mr sd (Some []) exc)
  ∧ Cache.getCacheKey (Cache.Build_TavilySearchParams q mr sd inc None)
    = Cache.getCacheKey (Cache.Build_TavilySearchParams q mr sd inc (Some [])).
Proof.
  intros Hc. unfold Cache.getCacheKey; simpl.
  split; [by rewrite StringFacts.toLowerCase_idem|].
  split; [by rewrite StringFacts.lower_char_space, StringFacts.trim_space_l by done|].
  split; [|repeat split].
  rewrite StringFacts.toLowerCase_app.
  change (toLowerCase (str1 c)) with (str1 (lower_char c)).
  rewrite StringFacts.lower_char_space by done.
  by rewrite StringFacts.trim_app_space_r.
Qed.

Lemma getCacheKey_normalizes_query_and_defaults_witness :
  Cache.getCacheKey (Cache.Build_TavilySearchParams (String " " "Byzantine saloi")
                       None None None None)
    = Cache.getCacheKey (Cache.Build_TavilySearchParams "Byzantine saloi" None None None None).
Proof.
  exact (proj1 (proj2 (getCacheKey_normalizes_query_and_defaults
                         "Byzantine saloi" " " None None None None eq_refl))).
Defined.

(** X3: getCacheKey does not depend on the order of includeDomains and excludeDomains: permuting either list gives the same key. *)
Theorem getCacheKey_domain_order_irrelevant
    (q : string) (mr : option Z) (sd : option Cache.SearchDepth)
    (inc inc' exc exc' : list string) :
  Permutation inc inc' → Permutation exc exc' →
  Cache.getCacheKey (Cache.Build_TavilySearchParams q mr sd (Some inc) (Some exc))
    = Cache.getCacheKey (Cache.Build_TavilySearchParams q mr sd (Some inc') (Some exc')).
Proof.
  intros Hi He. unfold Cache.getCacheKey; simpl.
  by rewrite (KeyFacts.sort_strings_perm inc inc'), (KeyFacts.sort_strings_perm exc exc').
Qed.

Lemma getCacheKey_domain_order_irrelevant_witness :
  Cache.getCacheKey (Cache.Build_TavilySearchParams "saloi" None None
                       (Some ["jstor.org"; "academia.edu"]) (Some []))
    = Cache.getCacheKey (Cache.Build_TavilySearchParams "saloi" None None
                       (Some ["academia.edu"; "jstor.org"]) (Some [])).
Proof.
  apply getCacheKey_domain_order_irrelevant; [apply perm_swap|apply perm_nil].
Defined.

(** X4: In a cache whose keys are distinct, after cleanupExpiredCache at time now a key still maps to its entry when the entry's expiresAt is at least now, and maps to nothing when the entry expired before now or the key was absent. *)
Theorem cleanupExpiredCache_removes_expired_only (now : Z) (m : Cache.store) (k : Cache.CacheKey) :
  List.NoDup (map fst m) →
  Cache.map_get k (Cache.cleanupExpiredCache now m) =
    match Cache.map_get k m with
    | Some e => if (Cache.expiresAt e <? now)%Z then None else Some e
    | None => None
    end.
Proof. apply CleanupFacts.cleanup_lookup. Qed.

Lemma cleanupExpiredCache_removes_expired_only_witness :
  Cache.map_get (Cache.getCacheKey (Cache.with_query "Byzantine saloi"))
      (Cache.cleanupExpiredCache 700000000 sample_store) = None
  ∧ Cache.map_get (Cache.getCacheKey (Cache.with_query "Holy fools"))
      (Cache.cleanupExpiredCache 700000000 sample_store)
    = Cache.map_get (Cache.getCacheKey (Cache.with_query "Holy fools")) sample_store.
Proof.
  assert (Hnd : List.NoDup (map fst sample_store)).
  { constructor; [intros [H|[]]; vm_compute in H; discriminate H|].
    constructor; [intros []|constructor]. }
  split; rewrite (cleanupExpiredCache_removes_expired_only _ _ _ Hnd); vm_compute; reflexivity.
Defined.

(** X5: In a cache whose keys are distinct, running cleanupExpiredCache at time now never changes the result of a later getCachedResult whose clock readings are at or after now. *)
Theorem cleanupExpiredCache_preserves_later_lookups
    (p : Cache.TavilySearchParams) (now now1 now2 : Z) (m : Cache.store) :
  List.NoDup (map fst m) → (now <= now1)%Z → (now <= now2)%Z →
  fst (Cache.getCachedResult p now1 now2 (Cache.cleanupExpiredCache now m))
  = fst (Cache.getCachedResult p now1 now2 m).
Proof.
  intros Hnd H1 H2. unfold Cache.getCachedResult.
  assert (Hex : Cache.exact_hit p now1 (Cache.cleanupExpiredCache now m)
                = Cache.exact_hit p now1 m).
  { unfold Cache.exact_hit. rewrite CleanupFacts.cleanup_lookup by done.
    destruct (Cache.map_get _ m) as [e|]; [|done].
    destruct (Cache.expiresAt e <? now)%Z eqn:E; [|done].
    apply Z.ltb_lt in E. by rewrite (proj2 (Z.ltb_ge now1 (Cache.expiresAt e))) by lia. }
  rewrite Hex. destruct (Cache.exact_hit p now1 m); [done|].
  assert (Hs : fst (Cache.findSimilarQuery p now2 (Cache.cleanupExpiredCache now m))
               = fst (Cache.findSimilarQuery p now2 m)).
  { unfold Cache.findSimilarQuery, Cache.cleanupExpiredCache.
    rewrite CleanupFacts.cleanup_go_filter.
    apply CleanupFacts.find_similar_filter.
    intros [k e] Hin HP. simpl in HP |- *.
    rewrite (CleanupFacts.expired_key_own now k e m Hnd Hin) in HP.
    destruct (Cache.expiresAt e <? now)%Z eqn:E; [|done].
    apply Z.ltb_lt in E. lia. }
  destruct (Cache.findSimilarQuery p now2 (Cache.cleanupExpiredCache now m)) as [o1 m1].
  destruct (Cache.findSimilarQuery p now2 m) as [o2 m2]. simpl in Hs. subst.
  by destruct o2.
Qed.

Lemma cleanupExpiredCache_preserves_later_lookups_witness :
  fst (Cache.getCachedResult (Cache.with_query "holy fools") 700000000 700000000
         (Cache.cleanupExpiredCache 700000000 sample_store))
  = Some (Cache.mark_cached (sample_result "Holy fools")).
Proof.
  assert (Hnd : List.NoDup (map fst sample_store)).
  { constructor; [intros [H|[]]; vm_compute in H; discriminate H|].
    constructor; [intros []|constructor]. }
  rewrite (cleanupExpiredCache_preserves_later_lookups _ 700000000 700000000 700000000 _ Hnd)
    by lia.
  vm_compute. reflexivity.
Defined.

(** X6: In a cache whose keys are distinct, an entry findSimilarQuery returns is stored in the cache, has expiresAt at least now and a similarity of at least 0.85 to the query. The scan only deletes entries, and keeps every entry whose expiresAt is at least now. *)
Theorem findSimilarQuery_live_and_similar
    (p : Cache.TavilySearchParams) (now : Z) (m m' : Cache.store) (o : option Cache.CacheEntry) :
  List.NoDup (map fst m) →
  Cache.findSimilarQuery p now m = (o, m') →
  (∀ e, o = Some e →
     (∃ k, In (k, e) m) ∧ (now <= Cache.expiresAt e)%Z
     ∧ (Cache.SIMILARITY_THRESHOLD
          <= Cache.calculateSimilarity (Cache.query p) (Cache.res_query (Cache.data e)))%Q)
  ∧ (∀ x, In x m' → In x m)
  ∧ (∀ k e, In (k, e) m → (now <= Cache.expiresAt e)%Z → In (k, e) m').
Proof.
  intros Hnd H. unfold Cache.findSimilarQuery in H. split; [|split].
  - intros e ->. apply CleanupFacts.find_similar_result in H as (Hk & He & Hs).
    split; [done|]. split; [done|]. by apply Qle_bool_iff.
  - intros x. by apply CleanupFacts.find_similar_sub with (1 := H).
  - intros k e Hin Hlive. apply (CleanupFacts.find_similar_keeps _ _ _ _ _ _ _ _ H Hin).
    intros e' He'. by rewrite <- (CleanupFacts.NoDup_keys_In k e e' m).
Qed.

Lemma findSimilarQuery_live_and_similar_witness :
  Cache.findSimilarQuery (Cache.with_query "holy  FOOLS") 700000000 sample_store
    = (Some {| Cache.data := sample_result "Holy fools";
               Cache.expiresAt := (600000000 + Cache.CACHE_TTL)%Z |},
       [(Cache.getCacheKey (Cache.with_query "Holy fools"),
         {| Cache.data := sample_result "Holy fools";
            Cache.expiresAt := (600000000 + Cache.CACHE_TTL)%Z |})])
  ∧ (700000000 <= 600000000 + Cache.CACHE_TTL)%Z.
Proof.
  assert (Hnd : List.NoDup (map fst sample_store)).
  { constructor; [intros [H|[]]; vm_compute in H; discriminate H|].
    constructor; [intros []|constructor]. }
  assert (H : Cache.findSimilarQuery (Cache.with_query "holy  FOOLS") 700000000 sample_store
    = (Some {| Cache.data := sample_result "Holy fools";
               Cache.expiresAt := (600000000 + Cache.CACHE_TTL)%Z |},
       [(Cache.getCacheKey (Cache.with_query "Holy fools"),
         {| Cache.data := sample_result "Holy fools";
            Cache.expiresAt := (600000000 + Cache.CACHE_TTL)%Z |})])) by (vm_compute; reflexivity).
  split; [exact H|].
  exact (proj1 (proj2 (proj1 (findSimilarQuery_live_and_similar _ _ _ _ _ Hnd H) _ eq_refl))).
Defined.

(** X7: calculateSimilarity always lies between 0 and 1, and is 1 when the two queries are equal after lower-casing. *)
Theorem calculateSimilarity_bounds (a b : string) :
  (0 <= Cache.calculateSimilarity a b <= 1)%Q
  ∧ (toLowerCase a = toLowerCase b → Cache.calculateSimilarity a b == 1)%Q.
Proof.
  unfold Cache.calculateSimilarity.
  set (w1 := dedup (split_ws (toLowerCase a))).
  set (w2 := dedup (split_ws (toLowerCase b))).
  assert (Hw1 : (1 <= List.length w1)%nat).
  { unfold w1. destruct (split_ws (toLowerCase a)) as [|x l] eqn:E.
    - pose proof (SimilarityFacts.split_ws_go_nonempty (toLowerCase a) "" false) as H.
      unfold split_ws in E. rewrite E in H. simpl in H. lia.
    - unfold dedup. simpl. lia. }
  assert (HI : (List.length (List.filter (fun w => Cache.mem w w2) w1) <= List.length w1)%nat)
    by apply SimilarityFacts.length_filter_le.
  assert (HU : (List.length w1 <= List.length (dedup (w1 ++ w2)%list))%nat).
  { apply NoDup_incl_length; [apply SimilarityFacts.dedup_NoDup|].
    intros x Hx. apply SimilarityFacts.dedup_In_iff, in_or_app. by left. }
  assert (HUpos : (0 < inject_Z (Z.of_nat (List.length (dedup (w1 ++ w2)%list))))%Q).
  { change 0%Q with (inject_Z 0). rewrite <- Zlt_Qlt. lia. }
  split; [split|].
  - apply Qle_shift_div_l; [done|]. rewrite Qmult_0_l. change 0%Q with (inject_Z 0). rewrite <- Zle_Qle. lia.
  - apply Qle_shift_div_r; [done|]. rewrite Qmult_1_l. change 1%Q with (inject_Z 1). rewrite <- Zle_Qle. lia.
  - intros E. assert (Hw : w2 = w1) by (unfold w1, w2; by rewrite E).
    rewrite Hw.
    assert (Hf : List.filter (fun w => Cache.mem w w1) w1 = w1).
    { apply SimilarityFacts.filter_all_true. intros x Hx. by apply SimilarityFacts.mem_In. }
    rewrite Hf.
    assert (Hl : List.length (dedup (w1 ++ w1)%list) = List.length w1).
    { apply SimilarityFacts.NoDup_same_length; [apply SimilarityFacts.dedup_NoDup|
        apply SimilarityFacts.dedup_NoDup|].
      intros x. rewrite SimilarityFacts.dedup_In_iff, in_app_iff. tauto. }
    rewrite Hl. field. intros H0. unfold Qeq in H0. simpl in H0. lia.
Qed.

Lemma calculateSimilarity_bounds_witness :
  Cache.calculateSimilarity "Holy Fools" "holy fools" == 1.
Proof.
  exact (proj2 (calculateSimilarity_bounds "Holy Fools" "holy fools") eq_refl).
Defined.

(** X8: calculateSimilarity is symmetric: calculateSimilarity(a, b) equals calculateSimilarity(b, a). *)
Theorem calculateSimilarity_symmetric (a b : string) :
  Cache.calculateSimilarity a b = Cache.calculateSimilarity b a.
Proof.
  unfold Cache.calculateSimilarity.
  set (w1 := dedup (split_ws (toLowerCase a))).
  set (w2 := dedup (split_ws (toLowerCase b))).
  assert (Hn1 : List.NoDup w1) by apply SimilarityFacts.dedup_NoDup.
  assert (Hn2 : List.NoDup w2) by apply SimilarityFacts.dedup_NoDup.
  assert (HI : List.length (List.filter (fun w => Cache.mem w w2) w1)
               = List.length (List.filter (fun w => Cache.mem w w1) w2)).
  { apply SimilarityFacts.NoDup_same_length; [by apply List.NoDup_filter|by apply List.NoDup_filter|].
    intros x. rewrite !filter_In, !SimilarityFacts.mem_In. tauto. }
  assert (HU : List.length (dedup (w1 ++ w2)%list) = List.length (dedup (w2 ++ w1)%list)).
  { apply SimilarityFacts.NoDup_same_length; try apply SimilarityFacts.dedup_NoDup.
    intros x. rewrite !SimilarityFacts.dedup_In_iff, !in_app_iff. tauto. }
  by rewrite HI, HU.
Qed.

(** X9: getModelRecommendation returns routeQuery's model and analyzeQueryComplexity's label. With n the length of the query plus the length of the selected text (0 when absent), its estimatedInputTokens e satisfies n <= 4 * (e - 500) < n + 8. *)
Theorem getModelRecommendation_estimate (q : string) (sel : option string) :
  let r := Router.getModelRecommendation q sel in
  let n := Z.of_nat (String.length q
                     + match sel with Some t => String.length t | None => 0 end) in
  Router.rec_model r = Router.routeQuery q sel
  ∧ Router.rec_complexity r = Router.analyzeQueryComplexity q sel
  ∧ (n <= 4 * (Router.estimatedInputTokens r - 500) < n + 8)%Z.
Proof.
  simpl. split; [done|]. split; [done|].
  pose proof (RouterFacts.estimateTokens_bounds q) as Hq.
  destruct sel as [[|c t]|]; simpl.
  - rewrite Nat.add_0_r. lia.
  - pose proof (RouterFacts.estimateTokens_bounds (String c t)) as Ht. simpl in Ht. lia.
  - rewrite Nat.add_0_r. lia.
Qed.

(** X10: A query whose trimmed lower-case form starts with one of the fixed openings of the simple patterns (what is/are/does/do/means/mean/was/were, define, definition of, summarize, summary of, tldr, eli5, quick question/summary, how do i/you, can you list/name, who/when/where with is, was, were or did), followed by the end or a non-word character, is classified simple whatever the selected text. *)
Theorem analyzeQueryComplexity_simple_prefix (q w t : string) (sel : option string) :
  In w ["what is"; "what are"; "what does"; "what do"; "what means"; "what mean";
        "what was"; "what were"; "define"; "definition of"; "summarize"; "summary of";
        "tldr"; "eli5"; "quick question"; "quick summary"; "how do i"; "how do you";
        "can you list"; "can you name"; "who is"; "who was"; "who were";
        "when did"; "when was"; "when were"; "where is"; "where was"; "where were"]%list →
  trim (toLowerCase q) = (w ++ t)%string →
  Router.word_after t = false →
  Router.analyzeQueryComplexity q sel = Router.simple.
Proof.
  intros Hw Hq Ht. unfold Router.analyzeQueryComplexity. rewrite Hq.
  enough (H : existsb (fun pattern => Router.rtest pattern (w ++ t)) Router.simplePatterns = true)
    by (rewrite H; done).
  simpl in Hw.
  unfold Router.simplePatterns, Router.rtest. cbn [existsb].
  repeat (destruct Hw as [<-|Hw]; [RouterFacts.pick Ht|]).
  destruct Hw.
Qed.

Lemma analyzeQueryComplexity_simple_prefix_witness :
  Router.analyzeQueryComplexity "  Define kenosis" (Some "a long passage") = Router.simple.
Proof.
  apply (analyzeQueryComplexity_simple_prefix "  Define kenosis" "define" " kenosis").
  - simpl. repeat (first [left; reflexivity | right]).
  - vm_compute. reflexivity.
  - reflexivity.
Defined.

(** X11: A query that matches no simple pattern and whose trimmed lower-case form contains a complex indicator word (compare, comparison, comparative, analyze, critical, criticism, criticize, evaluate, evaluation, relationship between, implication, consequence, synthesize, synthesizing, in depth, detailed explanation, detailed analysis, philosophical, theological) anywhere is classified complex, whatever its length or selected text. *)
Theorem analyzeQueryComplexity_complex_indicator (q a w b : string) (sel : option string) :
  In w ["compare"; "comparison"; "comparative"; "analyze"; "critical";
        "criticism"; "criticize"; "evaluate"; "evaluation"; "relationship between";
        "implication"; "consequence"; "synthesize"; "synthesizing"; "in depth";
        "detailed explanation"; "detailed analysis"; "philosophical"; "theological"]%list →
  Router.matches_any Router.simplePatterns q = false →
  trim (toLowerCase q) = (a ++ w ++ b)%string →
  Router.analyzeQueryComplexity q sel = Router.complex.
Proof.
  intros Hw Hs Hq. unfold Router.matches_any in Hs.
  unfold Router.analyzeQueryComplexity. cbv zeta. rewrite Hs, Hq.
  enough (H : existsb (fun i => Router.rtest i (a ++ w ++ b)) Router.complexIndicators = true)
    by (rewrite H; done).
  simpl in Hw.
  unfold Router.complexIndicators, Router.rtest. cbn [existsb].
  repeat (destruct Hw as [<-|Hw]; [RouterFacts.pick_in Hq|]).
  destruct Hw.
Qed.

Lemma analyzeQueryComplexity_complex_indicator_witness :
  Router.analyzeQueryComplexity "Kenosis in Byzantine THEOLOGICAL writing" None
  = Router.complex.
Proof.
  apply (analyzeQueryComplexity_complex_indicator _ "kenosis in byzantine " "theological"
           " writing").
  - simpl. repeat (first [left; reflexivity | right]).
  - vm_compute. reflexivity.
  - vm_compute. reflexivity.
Defined.

(** X12: extractPageContext never returns more than maxChars characters. *)
Theorem extractPageContext_within_budget (markdown : string) (maxChars : nat) :
  (String.length (Prompt.extractPageContext markdown maxChars) <= maxChars)%nat.
Proof. apply PageContextFacts.extractPageContext_length. Qed.

(** X13: For a page the chat route has read, the request's messages are the system prompt, then the page context uncut when non-empty (extractPageContext already keeps it within the 2000 characters buildCachedMessages would truncate to), then the user message. The request's model and max_tokens are those routeQuery picks for the message. *)
Theorem chat_request_page_context_untruncated (msg title body : string) :
  let pc := ChatRoute.page_context title body in
  Prompt.req_messages (ChatRoute.chat_request msg (Some (title, body)))
  = Prompt.formatForOpenRouter
      ({| Prompt.role := Prompt.system; Prompt.content := Prompt.CACHED_SYSTEM_PROMPT;
          Prompt.cache_control := Some Prompt.ephemeral |}
       :: (if Prompt.nonempty pc then [Prompt.page_context_message pc] else [])
       ++ [{| Prompt.role := Prompt.user; Prompt.content := msg;
              Prompt.cache_control := None |}])%list
  ∧ Prompt.req_model (ChatRoute.chat_request msg (Some (title, body)))
    = Router.model (Router.routeQuery msg None)
  ∧ Prompt.max_tokens (ChatRoute.chat_request msg (Some (title, body)))
    = Router.maxTokens (Router.routeQuery msg None).
Proof.
  simpl. split; [|done].
  unfold ChatRoute.chat_request, Prompt.buildCachedRequest, Prompt.buildCachedMessages. simpl.
  assert (Ht : Prompt.truncateContext (ChatRoute.page_context title body) 2000
               = ChatRoute.page_context title body).
  { unfold Prompt.truncateContext.
    rewrite (proj2 (Nat.leb_le _ _)); [done|].
    apply PageContextFacts.extractPageContext_length. }
  rewrite Ht. by destruct (Prompt.nonempty _).
Qed.

(** X15: calculateClaudeCost is nonnegative and never charges Haiku more than Sonnet for the same token counts, when 0 <= cachedTokens <= inputTokens and outputTokens >= 0. Sonnet only replaces each rate constant by a larger one, so this also holds with rounding to doubles. *)
Theorem calculateClaudeCost_haiku_le_sonnet (inputTokens outputTokens cachedTokens : Q) :
  (0 <= cachedTokens <= inputTokens)%Q → (0 <= outputTokens)%Q →
  (0 <= Costs.calculateClaudeCost inputTokens outputTokens cachedTokens Costs.haiku)%Q
  ∧ (Costs.calculateClaudeCost inputTokens outputTokens cachedTokens Costs.haiku
     <= Costs.calculateClaudeCost inputTokens outputTokens cachedTokens Costs.sonnet)%Q.
Proof.
  intros [H1 H2] H3. unfold Costs.calculateClaudeCost; simpl. unfold Qdiv.
  change (/ 1000000)%Q with (1 # 1000000)%Q. split; lra.
Qed.

Lemma calculateClaudeCost_haiku_le_sonnet_witness :
  (Costs.calculateClaudeCost 1200 300 1000 Costs.haiku
   <= Costs.calculateClaudeCost 1200 300 1000 Costs.sonnet)%Q.
Proof.
  apply (proj2 (calculateClaudeCost_haiku_le_sonnet 1200 300 1000
                  ltac:(split; vm_compute; discriminate) ltac:(vm_compute; discriminate))).
Defined.

(** X16: The chat route logs the model type haiku exactly when the query is classified simple, and the cost calculateClaudeCost gives that model type with no cached tokens equals the router's estimateCost for the routed model. *)
Theorem chat_model_type_and_cost (q : string) (sel : option string) (i o : Q) :
  let config := Router.routeQuery q sel in
  (ChatRoute.modelType config = Costs.haiku ↔ Router.analyzeQueryComplexity q sel = Router.simple)
  ∧ (Costs.calculateClaudeCost i o 0 (ChatRoute.modelType config)
     == Router.estimateCost config i o)%Q.
Proof.
  simpl. unfold Router.routeQuery.
  assert (Hh : ChatRoute.modelType Router.HAIKU = Costs.haiku) by (vm_compute; reflexivity).
  assert (Hs : ChatRoute.modelType Router.SONNET = Costs.sonnet) by (vm_compute; reflexivity).
  destruct (Router.analyzeQueryComplexity q sel); rewrite ?Hh, ?Hs;
    (split; [split; [intros H; try discriminate H; done | intros H; try discriminate H; done]|]);
    unfold Costs.calculateClaudeCost, Router.estimateCost; simpl; field.
Qed.

(** X17: When every log comes from logClaudeCall or logTavilyCall, each call in the period falls in exactly one breakdown bucket: the haiku, sonnet and tavily call counts add up to callCount. When every Tavily call in the period was a cache hit, tavilyCost and the tavily breakdown cost are 0. *)
Theorem calculateCostForPeriod_breakdown_counts (costLogs : Tracker.logs) (startTime endTime : Z) :
  let s := Tracker.calculateCostForPeriod costLogs startTime endTime in
  Forall Tracker.logged_call costLogs →
  (Tracker.calls (Tracker.breakdown_haiku s) + Tracker.calls (Tracker.breakdown_sonnet s)
   + Tracker.calls (Tracker.breakdown_tavily s) = Tracker.callCount s)%nat
  ∧ ((∀ log, In log (Tracker.period_logs costLogs startTime endTime) →
        Tracker.service log = Tracker.tavily → Tracker.cacheHit log = true) →
     Tracker.tavilyCost s == 0 ∧ Tracker.cost (Tracker.breakdown_tavily s) == 0)%Q.
Proof.
  simpl. intros Hall. set (ls := Tracker.period_logs costLogs startTime endTime).
  assert (Hls : Forall Tracker.logged_call ls).
  { unfold ls, Tracker.period_logs. apply List.Forall_forall. intros x Hx.
    apply List.filter_In in Hx as [Hx _]. by eapply List.Forall_forall in Hall. }
  clearbody ls. clear Hall.
  assert (Hz : (∀ log, In log ls → Tracker.service log = Tracker.tavily →
                 Tracker.cacheHit log = true) →
               Tracker.sum_cost (List.filter (fun log =>
                  Tracker.service_eqb (Tracker.service log) Tracker.tavily) ls) == 0).
  { induction Hls as [|x xs Hx Hxs IH]; intros Hc; [reflexivity|].
    assert (IH' : Tracker.sum_cost (List.filter (fun log =>
                    Tracker.service_eqb (Tracker.service log) Tracker.tavily) xs) == 0)
      by (apply IH; intros; apply Hc; [right|]; done).
    destruct (TrackerFacts.logged_cases x Hx)
      as [(_ & _ & _ & H4)|[(_ & _ & _ & H4)|(_ & _ & _ & H4 & H5)]];
      cbn [List.filter]; rewrite H4; cbv iota; [exact IH'|exact IH'|].
    rewrite TrackerFacts.sum_cost_cons, H5, IH'.
    assert (Hs : Tracker.service x = Tracker.tavily) by (destruct (Tracker.service x); done).
    rewrite (Hc x (or_introl eq_refl) Hs). reflexivity. }
  split; [|intros Hc; split; by apply Hz].
  clear Hz. induction Hls as [|x xs Hx Hxs IH]; [done|].
  destruct (TrackerFacts.logged_cases x Hx)
    as [(H1 & H2 & H3 & H4)|[(H1 & H2 & H3 & H4)|(H1 & H2 & H3 & H4 & H5)]];
    simpl; rewrite ?H1, ?H2, ?H3, ?H4; simpl; lia.
Qed.

Lemma calculateCostForPeriod_breakdown_counts_witness :
  let s := Tracker.calculateCostForPeriod sample_logs 0 2000 in
  (Tracker.calls (Tracker.breakdown_haiku s) + Tracker.calls (Tracker.breakdown_sonnet s)
   + Tracker.calls (Tracker.breakdown_tavily s) = Tracker.callCount s)%nat.
Proof.
  exact (proj1 (calculateCostForPeriod_breakdown_counts sample_logs 0 2000
                  TrackerFacts2.sample_logs_logged)).
Defined.

(** X18: calculateCostForPeriod's cacheHitRate lies between 0 and 1, its cache hits being a subset of its cacheable logs. With no call in the period, totalCost, claudeCost, tavilyCost, averageCostPerCall and cacheHitRate are all 0. *)
Theorem calculateCostForPeriod_rate_bounds (costLogs : Tracker.logs) (startTime endTime : Z) :
  let s := Tracker.calculateCostForPeriod costLogs startTime endTime in
  (0 <= Tracker.cacheHitRate s <= 1)%Q
  ∧ (Tracker.callCount s = 0%nat →
     Tracker.totalCost s == 0 ∧ Tracker.claudeCost s == 0 ∧ Tracker.tavilyCost s == 0
     ∧ Tracker.averageCostPerCall s == 0 ∧ Tracker.cacheHitRate s == 0)%Q.
Proof.
  simpl. set (ls := Tracker.period_logs costLogs startTime endTime).
  assert (Hpos : ∀ n, (0 < n)%nat → (0 < Tracker.nat_to_Q n)%Q).
  { intros n Hn. unfold Tracker.nat_to_Q. change 0%Q with (inject_Z 0). rewrite <- Zlt_Qlt. lia. }
  split.
  - set (c := List.filter Tracker.cacheable ls).
    destruct (0 <? List.length c)%nat eqn:E; [|split; [apply Qle_refl|discriminate]].
    apply Nat.ltb_lt in E.
    pose proof (SimilarityFacts.length_filter_le Tracker.cacheHit c) as Hle.
    split.
    + apply Qle_shift_div_l; [by apply Hpos|]. rewrite Qmult_0_l.
      unfold Tracker.nat_to_Q. change 0%Q with (inject_Z 0). rewrite <- Zle_Qle. lia.
    + apply Qle_shift_div_r; [by apply Hpos|]. rewrite Qmult_1_l.
      unfold Tracker.nat_to_Q. rewrite <- Zle_Qle. lia.
  - intros Hn. apply length_zero_iff_nil in Hn. rewrite Hn. simpl.
    repeat split; reflexivity.
Qed.

Lemma calculateCostForPeriod_rate_bounds_witness :
  (Tracker.totalCost (Tracker.calculateCostForPeriod sample_logs 5000 6000) == 0)%Q.
Proof.
  exact (proj1 (proj2 (calculateCostForPeriod_rate_bounds sample_logs 5000 6000)
                  ltac:(vm_compute; reflexivity))).
Defined.

(** X19: cleanupOldLogs at time now does not change calculateCostForPeriod for any period starting at or after now - 30 days, so getAllCostSummaries at now or any later time is unchanged. *)
Theorem cleanupOldLogs_keeps_recent_summaries (now : Z) (costLogs : Tracker.logs) :
  (∀ startTime endTime, (now - 30 * Tracker.oneDay <= startTime)%Z →
     Tracker.calculateCostForPeriod (Tracker.cleanupOldLogs now costLogs) startTime endTime
     = Tracker.calculateCostForPeriod costLogs startTime endTime)
  ∧ (∀ now', (now <= now')%Z →
     Tracker.getAllCostSummaries (Tracker.cleanupOldLogs now costLogs) now'
     = Tracker.getAllCostSummaries costLogs now').
Proof.
  assert (H : ∀ startTime endTime, (now - 30 * Tracker.oneDay <= startTime)%Z →
     Tracker.calculateCostForPeriod (Tracker.cleanupOldLogs now costLogs) startTime endTime
     = Tracker.calculateCostForPeriod costLogs startTime endTime).
  { intros s e Hs. unfold Tracker.calculateCostForPeriod.
    assert (Hp : Tracker.period_logs (Tracker.cleanupOldLogs now costLogs) s e
                 = Tracker.period_logs costLogs s e).
    { unfold Tracker.period_logs, Tracker.cleanupOldLogs.
      apply TrackerFacts.filter_filter_implied. intros x Hx.
      unfold Tracker.in_period in Hx. apply andb_prop in Hx as [Hx _].
      cbv beta zeta. apply Z.leb_le in Hx. apply Z.leb_le. unfold Tracker.oneDay in Hs. eapply Z.le_trans; [|exact Hx]. lia. }
    by rewrite Hp. }
  split; [exact H|].
  intros now' Hn. unfold Tracker.getAllCostSummaries.
  rewrite !H; try done; unfold Tracker.oneDay; lia.
Qed.

Lemma cleanupOldLogs_keeps_recent_summaries_witness :
  Tracker.calculateCostForPeriod (Tracker.cleanupOldLogs 2000 sample_logs) 0 2000
  = Tracker.calculateCostForPeriod sample_logs 0 2000.
Proof.
  apply (proj1 (cleanupOldLogs_keeps_recent_summaries 2000 sample_logs)).
  vm_compute. discriminate.
Defined.

(** X20: exportCostLogs with neither bound returns all logs, and a bound of 0 is ignored like a missing one. With two nonzero bounds it returns the logs calculateCostForPeriod aggregates for that period; with only a nonzero start it returns the logs stamped at or after the start. *)
Theorem exportCostLogs_filters (costLogs : Tracker.logs) (s e : Z) (o : option Z) :
  Tracker.exportCostLogs None None costLogs = costLogs
  ∧ Tracker.exportCostLogs (Some 0%Z) o costLogs = Tracker.exportCostLogs None o costLogs
  ∧ Tracker.exportCostLogs o (Some 0%Z) costLogs = Tracker.exportCostLogs o None costLogs
  ∧ (s ≠ 0%Z → e ≠ 0%Z →
     Tracker.exportCostLogs (Some s) (Some e) costLogs = Tracker.period_logs costLogs s e)
  ∧ (s ≠ 0%Z →
     Tracker.exportCostLogs (Some s) None costLogs
     = List.filter (fun log => (s <=? Tracker.timestamp log)%Z) costLogs).
Proof.
  unfold Tracker.exportCostLogs. split; [done|]. split; [done|]. split.
  { destruct o as [n|]; [|done]. unfold Tracker.truthy_num. simpl.
    destruct (n =? 0)%Z eqn:E; simpl; [|done].
    apply Z.eqb_eq in E. subst. done. }
  split.
  - intros Hs He. unfold Tracker.truthy_num.
    rewrite (proj2 (Z.eqb_neq _ _) Hs), (proj2 (Z.eqb_neq _ _) He). simpl.
    apply List.filter_ext. intros x. unfold Tracker.in_period.
    destruct (Tracker.timestamp x <? s)%Z eqn:E1; destruct (e <? Tracker.timestamp x)%Z eqn:E2;
      destruct (s <=? Tracker.timestamp x)%Z eqn:E3; destruct (Tracker.timestamp x <=? e)%Z eqn:E4;
      simpl; try done;
      rewrite ?Z.ltb_lt, ?Z.ltb_ge, ?Z.leb_le, ?Z.leb_gt in *; lia.
  - intros Hs. unfold Tracker.truthy_num.
    rewrite (proj2 (Z.eqb_neq _ _) Hs). simpl.
    apply List.filter_ext. intros x.
    destruct (Tracker.timestamp x <? s)%Z eqn:E1; destruct (s <=? Tracker.timestamp x)%Z eqn:E3;
      simpl; try done; rewrite ?Z.ltb_lt, ?Z.ltb_ge, ?Z.leb_le, ?Z.leb_gt in *; lia.
Qed.

Lemma exportCostLogs_filters_witness :
  Tracker.exportCostLogs (Some 1200%Z) (Some 2000%Z) sample_logs
  = Tracker.period_logs sample_logs 1200 2000.
Proof.
  apply (proj1 (proj2 (proj2 (proj2 (exportCostLogs_filters sample_logs 1200 2000 None)))));
    discriminate.
Defined.

(** X21: getProjections reports the daily cost d and a monthly projection of d * 30. It reports under when d <= 2.6, on_target when 2.62 <= d <= 3.18 and over when d >= 3.2, so the margins stay clear of the 78.3 and 95.7 cut-offs under rounding; and a higher daily cost never gives a lower band in the order under, on_target, over. *)
Theorem getProjections_bands_margin (costLogs : Tracker.logs) (now : Z) :
  let d := Tracker.calculateDailyCost costLogs now in
  let p := Tracker.getProjections costLogs now in
  Tracker.dailyProjected p = d
  ∧ (Tracker.monthlyProjected p == d * 30)%Q
  ∧ ((d <= 13 # 5)%Q → Tracker.onTrackFor p = Tracker.under)
  ∧ ((131 # 50 <= d <= 159 # 50)%Q → Tracker.onTrackFor p = Tracker.on_target)
  ∧ ((16 # 5 <= d)%Q → Tracker.onTrackFor p = Tracker.over)
  ∧ (∀ costLogs' now',
       (d <= Tracker.calculateDailyCost costLogs' now')%Q →
       (track_rank (Tracker.onTrackFor p)
        <= track_rank (Tracker.onTrackFor (Tracker.getProjections costLogs' now')))%nat).
Proof.
  simpl. set (d := Tracker.calculateDailyCost costLogs now).
  split; [done|]. split; [reflexivity|].
  assert (Hb : ∀ x : Q, Qle_bool (87 * (9 # 10)) (x * 30) = false ↔ (x * 30 < 87 * (9 # 10))%Q).
  { intros x. rewrite <- not_true_iff_false, Qle_bool_iff. split; [apply Qnot_le_lt|apply Qlt_not_le]. }
  assert (Hc : ∀ x : Q, Qle_bool (x * 30) (87 * (11 # 10)) = false ↔ (87 * (11 # 10) < x * 30)%Q).
  { intros x. rewrite <- not_true_iff_false, Qle_bool_iff. split; [apply Qnot_le_lt|apply Qlt_not_le]. }
  split; [|split; [|split]].
  - intros H. destruct (Qle_bool (87 * (9 # 10)) (d * 30)) eqn:E; [|done].
    apply Qle_bool_iff in E. lra.
  - intros [H1 H2].
    destruct (Qle_bool (87 * (9 # 10)) (d * 30)) eqn:E; [|apply Hb in E; lra].
    destruct (Qle_bool (d * 30) (87 * (11 # 10))) eqn:F; [done|apply Hc in F; lra].
  - intros H.
    destruct (Qle_bool (87 * (9 # 10)) (d * 30)) eqn:E; [|apply Hb in E; lra].
    destruct (Qle_bool (d * 30) (87 * (11 # 10))) eqn:F; [|done].
    apply Qle_bool_iff in F. lra.
  - intros l' n' H. set (d' := Tracker.calculateDailyCost l' n') in *.
    destruct (Qle_bool (87 * (9 # 10)) (d * 30)) eqn:E;
      destruct (Qle_bool (d * 30) (87 * (11 # 10))) eqn:F;
      destruct (Qle_bool (87 * (9 # 10)) (d' * 30)) eqn:E';
      destruct (Qle_bool (d' * 30) (87 * (11 # 10))) eqn:F'; simpl; try lia;
      repeat match goal with
      | Hx : Qle_bool _ _ = true |- _ => apply Qle_bool_iff in Hx
      | Hx : Qle_bool (87 * (9 # 10)) _ = false |- _ => apply Hb in Hx
      | Hx : Qle_bool _ (87 * (11 # 10)) = false |- _ => apply Hc in Hx
      end; lra.
Qed.

Lemma getProjections_bands_margin_witness :
  Tracker.onTrackFor (Tracker.getProjections sample_logs 2000) = Tracker.under.
Proof.
  exact (proj1 (proj2 (proj2 (getProjections_bands_margin sample_logs 2000)))
           ltac:(vm_compute; discriminate)).
Defined.

(** X22: logAPICall appends the log and raises a daily budget alert (threshold 3, carrying the new daily cost) exactly when the daily cost after the append exceeds 3. A log stamped within the last day raises the daily cost by its estimatedCost; any other log leaves it unchanged. *)
Theorem logAPICall_appends_and_alerts (log : Tracker.APICallLog) (now : Z) (costLogs : Tracker.logs) :
  let r := Tracker.logAPICall log now costLogs in
  let d := Tracker.calculateDailyCost (costLogs ++ [log])%list now in
  fst r = (costLogs ++ [log])%list
  ∧ (snd r = None ↔ (d <= 3)%Q)
  ∧ (∀ a, snd r = Some a →
       Tracker.alert_period a = Tracker.daily ∧ Tracker.actual a = d
       ∧ Tracker.threshold a = 3%Q ∧ (3 < Tracker.actual a)%Q)
  ∧ ((now - Tracker.oneDay <= Tracker.timestamp log <= now)%Z →
     (d == Tracker.calculateDailyCost costLogs now + Tracker.estimatedCost log)%Q)
  ∧ (¬ (now - Tracker.oneDay <= Tracker.timestamp log <= now)%Z →
     d = Tracker.calculateDailyCost costLogs now).
Proof.
  simpl. split; [done|].
  destruct (TrackerFacts2.daily_cost_append log now costLogs) as [Hin Hout].
  split; [|split; [|split; [exact Hin|exact Hout]]].
  - destruct (Qle_bool _ 3) eqn:E; simpl.
    + split; [intros _; by apply Qle_bool_iff|done].
    + split; [discriminate|]. intros H. apply Qle_bool_iff in H. congruence.
  - intros a. destruct (Qle_bool _ 3) eqn:E; simpl; [discriminate|].
    intros [= <-]. simpl. split; [done|]. split; [done|]. split; [done|].
    apply Qnot_le_lt. intros H. apply Qle_bool_iff in H. congruence.
Qed.

Lemma logAPICall_appends_and_alerts_witness :
  (Tracker.calculateDailyCost
     (sample_logs ++ [Tracker.tavily_log sample_tavily_params 1800])%list 2000
   == Tracker.calculateDailyCost sample_logs 2000 + (5 # 1000))%Q.
Proof.
  exact (proj1 (proj2 (proj2 (proj2
           (logAPICall_appends_and_alerts (Tracker.tavily_log sample_tavily_params 1800)
              2000 sample_logs))))
           ltac:(vm_compute; split; discriminate)).
Defined.

(** X23: When the daily cost is read within a day after the call, logClaudeCall raises it by exactly calculateClaudeCost of the call's tokens, and logTavilyCall by calculateTavilyCost of its cached flag. *)
Theorem logClaudeCall_logTavilyCall_daily
    (pc : Tracker.ClaudeCallParams) (pt : Tracker.TavilyCallParams) (now1 now2 : Z)
    (costLogs : Tracker.logs) :
  (now2 - Tracker.oneDay <= now1 <= now2)%Z →
  (Tracker.calculateDailyCost (fst (Tracker.logClaudeCall pc now1 now2 costLogs)) now2
   == Tracker.calculateDailyCost costLogs now2
      + Costs.calculateClaudeCost (Tracker.cp_inputTokens pc) (Tracker.cp_outputTokens pc)
          (Tracker.cp_cachedTokens pc) (Tracker.cp_model pc))%Q
  ∧ (Tracker.calculateDailyCost (fst (Tracker.logTavilyCall pt now1 now2 costLogs)) now2
     == Tracker.calculateDailyCost costLogs now2
        + Tracker.calculateTavilyCost (Tracker.tp_cached pt))%Q.
Proof.
  intros H. split.
  - exact (proj1 (TrackerFacts2.daily_cost_append (Tracker.claude_log pc now1) now2 costLogs) H).
  - exact (proj1 (TrackerFacts2.daily_cost_append (Tracker.tavily_log pt now1) now2 costLogs) H).
Qed.

Lemma logClaudeCall_logTavilyCall_daily_witness :
  (Tracker.calculateDailyCost
     (fst (Tracker.logClaudeCall sample_claude_params 1000 2000 [])) 2000
   == Tracker.calculateDailyCost [] 2000
      + Costs.calculateClaudeCost 1200 300 1000 Costs.haiku)%Q
  ∧ (Tracker.calculateDailyCost
       (fst (Tracker.logTavilyCall sample_tavily_params 1000 2000 [])) 2000
     == Tracker.calculateDailyCost [] 2000 + (5 # 1000))%Q.
Proof.
  exact (logClaudeCall_logTavilyCall_daily sample_claude_params sample_tavily_params 1000 2000 []
           ltac:(vm_compute; split; discriminate)).
Defined.

(** X24: In a graph built by buildLinkGraph, p is in backlinks[q] only if q is in forwardLinks[p]: every backlink comes from a forward link. *)
Theorem buildLinkGraph_backlinks_sound (files : list Graph.ChapterFile)
    (p q : string) (b : gset string) :
  Graph.backlinks (Graph.buildLinkGraph files) !! q = Some b → p ∈ b →
  ∃ s, Graph.forwardLinks (Graph.buildLinkGraph files) !! p = Some s ∧ q ∈ s.
Proof.
  unfold Graph.buildLinkGraph.
  destruct (foldl Graph.load_file (∅, ∅) files) as [pgs fwd]. simpl.
  intros Hb Hp. apply GraphFacts2.build_backlinks_sound. by exists b.
Qed.

Lemma buildLinkGraph_backlinks_sound_witness :
  ∃ s, Graph.forwardLinks (Graph.buildLinkGraph sample_files) !! "b" = Some s ∧ "a" ∈ s.
Proof.
  apply (buildLinkGraph_backlinks_sound sample_files "b" "a" {["b"]}).
  - vm_compute. reflexivity.
  - set_solver.
Defined.

(** X25: In a graph built by buildLinkGraph, every page getRelatedPages returns for a slug is stored in pages under its own slug and is a forward link of that slug. *)
Theorem getRelatedPages_are_linked_pages (files : list Graph.ChapterFile) (s : string)
    (r : Graph.WikiPage) :
  In r (Graph.getRelatedPages (Graph.buildLinkGraph files) s) →
  Graph.pages (Graph.buildLinkGraph files) !! Graph.slug r = Some r
  ∧ ∃ f, Graph.forwardLinks (Graph.buildLinkGraph files) !! s = Some f ∧ Graph.slug r ∈ f.
Proof.
  intros Hin. unfold Graph.getRelatedPages in Hin.
  destruct (Graph.pages (Graph.buildLinkGraph files) !! s) as [page|] eqn:Hs; [|done].
  apply GraphFacts.filter_defined_In, in_map_iff in Hin as (x & Hx & Hel).
  pose proof (GraphFacts.buildLinkGraph_pages_keyed files x r Hx) as Hk. subst x.
  split; [done|].
  destruct (proj2 (GraphFacts2.buildLinkGraph_inv files s) page Hs) as (f & Hf & Hsub).
  exists f. split; [done|]. apply Hsub. by apply SimilarityFacts.dedup_In_iff.
Qed.

Lemma getRelatedPages_are_linked_pages_witness :
  ∃ f, Graph.forwardLinks (Graph.buildLinkGraph sample_files) !! "a" = Some f ∧ "b" ∈ f.
Proof.
  apply (proj2 (getRelatedPages_are_linked_pages sample_files "a"
                  (Graph.Build_WikiPage "b" "b" None None (Some []) (Some []) (Some []))%list
                  ltac:(vm_compute; left; reflexivity))).
Defined.

(** X26: Every page getCategoryPages returns for a slug is a stored page with the same non-empty category as that slug's page, and is not that page. *)
Theorem getCategoryPages_same_category (g : Graph.LinkGraph) (s : string) (r : Graph.WikiPage) :
  In r (Graph.getCategoryPages g s) →
  ∃ page c, Graph.pages g !! s = Some page ∧ Graph.category page = Some c ∧ c ≠ ""
            ∧ Graph.category r = Some c ∧ Graph.slug r ≠ s
            ∧ ∃ k, Graph.pages g !! k = Some r.
Proof.
  intros Hin. unfold Graph.getCategoryPages in Hin.
  destruct (Graph.pages g !! s) as [page|] eqn:Hs; [|done].
  destruct (Graph.category page) as [[|a c]|] eqn:Hc; simpl in Hin; try done.
  apply filter_In in Hin as [Hin Hf]. apply andb_prop in Hf as [Hcat Hsl].
  apply in_map_iff in Hin as ([k r'] & <- & Hkr). simpl in *.
  exists page, (String a c). split; [done|]. split; [done|]. split; [discriminate|].
  split.
  - destruct (Graph.category r') as [x|]; simpl in Hcat; [|discriminate].
    apply String.eqb_eq in Hcat. by subst.
  - split.
    + intros E. rewrite E, String.eqb_refl in Hsl. discriminate.
    + exists k. apply elem_of_map_to_list. by apply list_elem_of_In.
Qed.

Lemma getCategoryPages_same_category_witness :
  In (Graph.Build_WikiPage "c" "c" None (Some "history") (Some []) (Some []) (Some []))%list
     (Graph.getCategoryPages (Graph.buildLinkGraph sample_history_files) "a")
  ∧ Graph.slug (Graph.Build_WikiPage "c" "c" None (Some "history") (Some []) (Some [])
                  (Some []))%list ≠ "a".
Proof.
  assert (Hin : In (Graph.Build_WikiPage "c" "c" None (Some "history") (Some []) (Some [])
                      (Some []))%list
                  (Graph.getCategoryPages (Graph.buildLinkGraph sample_history_files) "a"))
    by (vm_compute; left; reflexivity).
  split; [exact Hin|].
  destruct (getCategoryPages_same_category _ _ _ Hin) as (page & c & _ & _ & _ & _ & Hs & _).
  exact Hs.
Defined.

(** X27: buildLinkGraph ignores files whose name does not end in .md: the graph equals the one built from the .md files alone. In a built graph a slug has a page exactly when it has a forward-link entry. *)
Theorem buildLinkGraph_ignores_non_md (files : list Graph.ChapterFile) :
  Graph.buildLinkGraph files
  = Graph.buildLinkGraph
      (List.filter (fun f => ends_with ".md" (Graph.file_name f)) files)
  ∧ (∀ k, Graph.pages (Graph.buildLinkGraph files) !! k = None
          ↔ Graph.forwardLinks (Graph.buildLinkGraph files) !! k = None).
Proof.
  split.
  - unfold Graph.buildLinkGraph. by rewrite GraphFacts2.foldl_load_md.
  - intros k. apply GraphFacts2.buildLinkGraph_inv.
Qed.
